(** * rag_utils: a shallow embedding of [src/rag_utils.py]

    The module is five Python functions around three external collaborators
    (a retriever, a prompt template and a language model):

    - [ask_rag]                     retrieve, join, truncate, format, invoke;
    - [score_question]              in-place update of one score record;
    - [compute_metrics]             averages over the fully populated records;
    - [parse_score]                 first number of a judge response, scaled;
    - [evaluate_answer_with_llm]    the two judge prompts, with a catch-all.

    Python values are modelled as they are used: a [str] that is only
    passed on, sliced or joined as [string]; a [str] whose characters are
    looked at (the text [parse_score] searches) as the list of its code
    points; [int] as [Z]; [float] as IEEE 754 binary64 through the Standard
    Library's executable specification [SpecFloat]; dictionaries as
    [gmap string _] living in a heap of objects, so that in-place mutation
    and aliasing are visible; exceptions as an outcome of every effectful
    step; an argument of another class by what its methods do. *)

From Stdlib Require Import ZArith NArith String Ascii List.
From Stdlib Require Import Floats.SpecFloat.
From stdpp Require Import gmap strings list pretty.

Local Open Scope string_scope.
Local Open Scope list_scope.
Local Open Scope Z_scope.

(** ** Python floats: IEEE 754 binary64 *)

Module F64.

Definition prec : Z := 53.
Definition emax : Z := 1024.

Abbreviation float := spec_float.

(** [float(z)] for an integer inside the range of the format, rounded to
    nearest even, in canonical form. *)
Definition of_Z (z : Z) : float := binary_normalize prec emax z 0 false.

Definition zero : float := S754_zero false.
Definition one : float := of_Z 1.
Definition ten : float := of_Z 10.

Definition add : float -> float -> float := SFadd prec emax.
Definition div : float -> float -> float := SFdiv prec emax.
Definition ltb : float -> float -> bool := SFltb.

Definition is_finite (x : float) : bool :=
  match x with
  | S754_zero _ | S754_finite _ _ _ => true
  | S754_infinity _ | S754_nan => false
  end.

Fixpoint pow10 (k : nat) : positive :=
  match k with
  | O => 1
  | S k' => 10 * pow10 k'
  end%positive.

(** The double nearest to [n / 10^k]: the value Python's correctly rounded
    [float()] gives to the decimal literal whose digits, read without the
    point, are [n] and which has [k] digits after the point.  [SFdiv] rounds
    the exact quotient of two integer mantissas once, whatever their size. *)
Definition of_decimal (n : N) (k : nat) : float :=
  match n with
  | N0 => zero
  | Npos p => div (S754_finite false p 0) (S754_finite false (pow10 k) 0)
  end.

End F64.

Abbreviation float := F64.float.

(** ** Python values, exceptions and the effect monad *)

(** The exception classes the module can meet.  [KeyboardInterrupt] and
    [SystemExit] derive from [BaseException] only; every other class derives
    from [Exception]. *)
Inductive exn_class :=
| TypeError | ValueError | KeyError | IndexError | OverflowError
| ZeroDivisionError | RuntimeError | SystemError
| KeyboardInterrupt | SystemExit.

Record exn := Exn { exn_cls : exn_class; exn_str : string }.

(** [isinstance(e, Exception)] *)
Definition is_Exception (e : exn) : bool :=
  match exn_cls e with
  | KeyboardInterrupt | SystemExit => false
  | _ => true
  end.

(** The text of a Python [str] whose characters are inspected: its code
    points.  [ustr] gives the text of an ASCII literal of this file. *)
Abbreviation text := (list N).

Definition ustr (s : string) : text := map N_of_ascii (list_ascii_of_string s).

(** The values that flow through the module.  [PyObj] is an object of a class
    [cls] that defines no arithmetic and is no string (a chat message
    returned by a chat model, a list, a dictionary). *)
Inductive pyval :=
| PyNone
| PyInt (z : Z)
| PyFloat (x : float)
| PyStr (s : text)
| PyObj (cls : string).

Global Instance spec_float_eq_dec : EqDecision spec_float.
Proof. solve_decision. Defined.

Global Instance pyval_eq_dec : EqDecision pyval.
Proof. solve_decision. Defined.

(** [type(v).__name__] *)
Definition type_name (v : pyval) : string :=
  match v with
  | PyNone => "NoneType"
  | PyInt _ => "int"
  | PyFloat _ => "float"
  | PyStr _ => "str"
  | PyObj cls => cls
  end.

Inductive outcome (A : Type) :=
| Returned (a : A)
| Raised (e : exn).
Arguments Returned {A} a.
Arguments Raised {A} e.

(** A Python computation over a state [Σ]: it ends in a state, and either
    returns or raises. *)
Definition Py (Σ A : Type) : Type := Σ -> Σ * outcome A.

Global Instance py_ret {Σ} : MRet (Py Σ) := fun A (a : A) σ => (σ, Returned a).
Global Instance py_bind {Σ} : MBind (Py Σ) := fun A B (k : A -> Py Σ B) (m : Py Σ A) σ =>
  match m σ with
  | (σ', Returned a) => k a σ'
  | (σ', Raised e) => (σ', Raised e)
  end.

Definition raise {Σ A} (e : exn) : Py Σ A := fun σ => (σ, Raised e).
Definition lift_outcome {Σ A} (o : outcome A) : Py Σ A := fun σ => (σ, o).

(** [try: body  except Exception as e: handler(e)]: the handler runs in the
    state the body had reached; an exception that is not an [Exception] goes
    through. *)
Definition try_except_Exception {Σ A} (body : Py Σ A) (handler : exn -> Py Σ A) : Py Σ A :=
  fun σ =>
    match body σ with
    | (σ', Raised e) => if is_Exception e then handler e σ' else (σ', Raised e)
    | r => r
    end.

(** Arithmetic on values, as [float.__add__] and [float.__truediv__] do it.
    An [int] operand is converted first; the conversion raises when the
    integer is beyond the range of a double.  On any other operand
    [float.__add__] gives [NotImplemented]; the operands of the model
    ([None], a [str], a [PyObj], whose class defines no arithmetic) have no
    reflected method to fall back on, and the operation raises a
    [TypeError]. *)
Definition float_of_int (z : Z) : outcome float :=
  let x := F64.of_Z z in
  if F64.is_finite x then Returned x
  else Raised (Exn OverflowError "int too large to convert to float").

Definition as_float (v : pyval) : option float :=
  match v with
  | PyFloat x => Some x
  | PyInt z => match float_of_int z with Returned x => Some x | Raised _ => None end
  | _ => None
  end.

Definition float_add (x : float) (v : pyval) : outcome pyval :=
  match v with
  | PyFloat y => Returned (PyFloat (F64.add x y))
  | PyInt z =>
      match float_of_int z with
      | Returned y => Returned (PyFloat (F64.add x y))
      | Raised e => Raised e
      end
  | _ =>
      Raised (Exn TypeError ("unsupported operand type(s) for +=: 'float' and '"
                             +:+ type_name v +:+ "'"))
  end.

Definition float_truediv_int (x : float) (z : Z) : outcome pyval :=
  match float_of_int z with
  | Returned y =>
      if (z =? 0)%Z then Raised (Exn ZeroDivisionError "float division by zero")
      else Returned (PyFloat (F64.div x y))
  | Raised e => Raised e
  end.

(** [int / int] rounds the exact quotient once. *)
Definition int_truediv (a b : Z) : outcome pyval :=
  match b with
  | Z0 => Raised (Exn ZeroDivisionError "division by zero")
  | _ =>
      let q := match a with
               | Z0 => F64.zero
               | _ => F64.div (S754_finite (a <? 0) (Z.to_pos (Z.abs a)) 0)
                              (S754_finite (b <? 0) (Z.to_pos (Z.abs b)) 0)
               end in
      if F64.is_finite q then Returned (PyFloat q)
      else Raised (Exn OverflowError "integer division result too large for a float")
  end.

(** [a + b] and [a / n] where the left operand is whatever the dictionary
    holds. *)
Definition py_add (a b : pyval) : outcome pyval :=
  match a with
  | PyFloat x => float_add x b
  | PyInt z =>
      match b with
      | PyInt z' => Returned (PyInt (z + z'))
      | PyFloat y =>
          match float_of_int z with
          | Returned x => Returned (PyFloat (F64.add x y))
          | Raised e => Raised e
          end
      | _ =>
          Raised (Exn TypeError ("unsupported operand type(s) for +=: 'int' and '"
                                 +:+ type_name b +:+ "'"))
      end
  | _ =>
      Raised (Exn TypeError ("unsupported operand type(s) for +=: '" +:+ type_name a
                             +:+ "' and '" +:+ type_name b +:+ "'"))
  end.

Definition py_truediv_int (a : pyval) (n : Z) : outcome pyval :=
  match a with
  | PyFloat x => float_truediv_int x n
  | PyInt z => int_truediv z n
  | _ =>
      Raised (Exn TypeError ("unsupported operand type(s) for /=: '" +:+ type_name a
                             +:+ "' and 'int'"))
  end.

(** ** The object heap

    A score list is a Python list of dictionaries.  The list holds references;
    the dictionaries live in the heap, so that two positions of a list may
    hold the same record and a write through one is seen through the other. *)

Abbreviation loc := positive.
Abbreviation dict := (gmap string pyval).

Record store := Store { heap : gmap loc dict; stdout : list string }.

(** CPython's bound on [len(l)], [sys.maxsize]. *)
Definition PY_SSIZE_T_MAX : Z := 2 ^ 63 - 1.

(** [print(line)] *)
Definition print (line : string) : Py store unit :=
  fun σ => (Store (heap σ) (stdout σ ++ [line]), Returned tt).

Definition deref (r : loc) : Py store dict :=
  fun σ =>
    match heap σ !! r with
    | Some d => (σ, Returned d)
    | None => (σ, Raised (Exn SystemError "reference to no object"))
    end.

(** [{...}]: a new dictionary object *)
Definition dict_new (d : dict) : Py store loc :=
  fun σ =>
    let r := fresh (dom (heap σ)) in
    (Store (<[r := d]> (heap σ)) (stdout σ), Returned r).

(** [k in d] *)
Definition dict_contains (r : loc) (k : string) : Py store bool :=
  d ← deref r; mret (bool_decide (is_Some (d !! k))).

(** [d[k]] *)
Definition dict_getitem (r : loc) (k : string) : Py store pyval :=
  d ← deref r;
  match d !! k with
  | Some v => mret v
  | None => raise (Exn KeyError k)
  end.

(** [d[k] = v] *)
Definition store_object (r : loc) (d : dict) : Py store unit :=
  fun σ => (Store (<[r := d]> (heap σ)) (stdout σ), Returned tt).

Definition dict_setitem (r : loc) (k : string) (v : pyval) : Py store unit :=
  d ← deref r; store_object r (<[k := v]> d).

(** [len(l)] *)
Definition len {A} (l : list A) : Z := Z.of_nat (length l).

(** [l[i]], negative indices counting from the end *)
Definition list_getitem {A} (l : list A) (i : Z) : Py store A :=
  let j := if i <? 0 then i + len l else i in
  match (if 0 <=? j then l !! Z.to_nat j else None) with
  | Some x => mret x
  | None => raise (Exn IndexError "list index out of range")
  end.

(** ** [score_question] *)

Definition score_question (scores_list : list loc) (index : Z) (vf vr rf rr : pyval)
  : Py store unit :=
  let idx := index - 1 in
  if (0 <=? idx) && (idx <? len scores_list) then
    s ← list_getitem scores_list idx; dict_setitem s "vanilla_faith" vf;;
    s ← list_getitem scores_list idx; dict_setitem s "vanilla_relev" vr;;
    s ← list_getitem scores_list idx; dict_setitem s "rag_faith" rf;;
    s ← list_getitem scores_list idx; dict_setitem s "rag_relev" rr
  else
    print ("Error: Index " +:+ pretty index +:+ " out of range.").

(** ** [compute_metrics] *)

Definition score_keys : list string :=
  ["vanilla_faith"; "vanilla_relev"; "rag_faith"; "rag_relev"].

Definition is_None (v : pyval) : bool :=
  match v with PyNone => true | _ => false end.

(** [all(k in s and s[k] is not None for k in keys)], stopping at the first
    key that fails *)
Fixpoint all_present (s : loc) (keys : list string) : Py store bool :=
  match keys with
  | [] => mret true
  | k :: keys' =>
      has ← dict_contains s k;
      if has : bool then
        v ← dict_getitem s k;
        if is_None v then mret false else all_present s keys'
      else mret false
  end.

(** [metrics[km] += s[ks]] *)
Definition iadd_item (metrics : loc) (km : string) (s : loc) (ks : string) : Py store unit :=
  a ← dict_getitem metrics km;
  b ← dict_getitem s ks;
  c ← lift_outcome (py_add a b);
  dict_setitem metrics km c.

(** [metrics[km] /= n] *)
Definition itruediv_item (metrics : loc) (km : string) (n : Z) : Py store unit :=
  a ← dict_getitem metrics km;
  c ← lift_outcome (py_truediv_int a n);
  dict_setitem metrics km c.

(** The [for s in scores_list] loop; [valid_entries] is the local counter. *)
Fixpoint compute_metrics_loop (metrics : loc) (scores_list : list loc) (valid_entries : Z)
  : Py store Z :=
  match scores_list with
  | [] => mret valid_entries
  | s :: rest =>
      ok ← all_present s score_keys;
      if ok : bool then
        iadd_item metrics "vanilla_faith_avg" s "vanilla_faith";;
        iadd_item metrics "vanilla_relev_avg" s "vanilla_relev";;
        iadd_item metrics "rag_faith_avg" s "rag_faith";;
        iadd_item metrics "rag_relev_avg" s "rag_relev";;
        compute_metrics_loop metrics rest (valid_entries + 1)
      else compute_metrics_loop metrics rest valid_entries
  end.

Definition metrics_dict (vf vr rf rr n : pyval) : dict :=
  {[ "vanilla_faith_avg" := vf;
     "vanilla_relev_avg" := vr;
     "rag_faith_avg" := rf;
     "rag_relev_avg" := rr;
     "count" := n ]}.

Definition compute_metrics (scores_list : list loc) : Py store loc :=
  metrics ← dict_new (metrics_dict (PyFloat F64.zero) (PyFloat F64.zero)
                                   (PyFloat F64.zero) (PyFloat F64.zero) (PyInt 0));
  valid_entries ← compute_metrics_loop metrics scores_list 0;
  (if 0 <? valid_entries then
     itruediv_item metrics "vanilla_faith_avg" valid_entries;;
     itruediv_item metrics "vanilla_relev_avg" valid_entries;;
     itruediv_item metrics "rag_faith_avg" valid_entries;;
     itruediv_item metrics "rag_relev_avg" valid_entries
   else mret tt);;
  dict_setitem metrics "count" (PyInt valid_entries);;
  mret metrics.

(** ** [parse_score] *)

Global Instance outcome_ret : MRet outcome := fun A (a : A) => Returned a.
Global Instance outcome_bind : MBind outcome := fun A B (k : A -> outcome B) (o : outcome A) =>
  match o with
  | Returned a => k a
  | Raised e => Raised e
  end.

(** The decimal digits of Unicode (general category Nd), which are what
    [\d] matches in a [str] pattern and what [float()] reads as digits (the
    two use the same test, [Py_UNICODE_TODECIMAL]).  They come in runs of
    ten, zero to nine; the table gives the zero of each run, from the
    Unicode Character Database 14.0 that CPython 3.11 carries: the ASCII
    digits first, then the Arabic-Indic ones, and so on up to the segmented
    digits at U+1FBF0. *)
Definition decimal_zeros : list N :=
  [
   48; 1632; 1776; 1984; 2406; 2534; 2662; 2790; 2918; 3046;
   3174; 3302; 3430; 3558; 3664; 3792; 3872; 4160; 4240; 6112;
   6160; 6470; 6608; 6784; 6800; 6992; 7088; 7232; 7248; 42528;
   43216; 43264; 43472; 43504; 43600; 44016; 65296; 66720; 68912; 69734;
   69872; 69942; 70096; 70384; 70736; 70864; 71248; 71360; 71472; 71904;
   72016; 72784; 73040; 73120; 92768; 92864; 93008; 120782; 120792; 120802;
   120812; 120822; 123200; 123632; 125264; 130032
  ]%N.

(** [Py_UNICODE_TODECIMAL]: the value of a decimal digit *)
Definition decimal_value (c : N) : option N :=
  match List.find (fun z => (z <=? c) && (c <? z + 10))%N decimal_zeros with
  | Some z => Some (c - z)%N
  | None => None
  end.

(** [\d] *)
Definition is_digit (c : N) : bool :=
  match decimal_value c with
  | Some _ => true
  | None => false
  end.

(** The full stop, which [\.] matches and no other character. *)
Definition point : N := 46.

(** A greedy [\d*]: the longest run of digits at the start, and what follows. *)
Fixpoint digits_prefix (s : text) : text * text :=
  match s with
  | c :: s' =>
      if is_digit c then
        let (ds, rest) := digits_prefix s' in (c :: ds, rest)
      else ([], s)
  | [] => ([], [])
  end.

(** The group [(\.\d+)] tried at the start of [s]: a point, then every digit
    that follows, one at least.  The result is the digits. *)
Definition match_fraction (s : text) : option text :=
  match s with
  | c :: rest =>
      if (c =? point)%N then
        match digits_prefix rest with
        | ([], _) => None
        | (fs, _) => Some fs
        end
      else None
  | [] => None
  end.

(** The pattern [\d+(\.\d+)?] tried at the start of [s]: [\d+] takes every
    digit it can, one at least; the group is taken when it matches what
    follows and is skipped otherwise.  The result is the text matched. *)
Definition match_number (s : text) : option text :=
  match digits_prefix s with
  | ([], _) => None
  | (ds, rest) =>
      match match_fraction rest with
      | Some fs => Some (ds ++ point :: fs)
      | None => Some ds
      end
  end.

(** A match object: [m.start()] and [m.group()]. *)
Record re_match := ReMatch { m_start : nat; m_group : text }.

(** The scan of [re.search]: the pattern is tried at offset 0, 1, 2, ... and
    the first offset at which it matches wins. *)
Fixpoint search_from (offset : nat) (s : text) : option re_match :=
  match match_number s with
  | Some matched => Some (ReMatch offset matched)
  | None =>
      match s with
      | _ :: s' => search_from (S offset) s'
      | [] => None
      end
  end.

(** [re.search(r'\d+(\.\d+)?', response_text)] *)
Definition re_search (response_text : pyval) : outcome (option re_match) :=
  match response_text with
  | PyStr s => Returned (search_from 0 s)
  | _ =>
      Raised (Exn TypeError ("expected string or bytes-like object, got '"
                             +:+ type_name response_text +:+ "'"))
  end.

Definition digit_value (c : N) : N :=
  match decimal_value c with
  | Some v => v
  | None => 0
  end.

Fixpoint digits_value (acc : N) (ds : text) : N :=
  match ds with
  | [] => acc
  | c :: ds' => digits_value (10 * acc + digit_value c)%N ds'
  end.

(** [float(s)] on plain decimal literals: digits, optionally a point and
    more digits, at least one digit in all.  The other spellings Python
    accepts (sign, exponent, blanks, underscores, [inf], [nan]) cannot come
    out of the pattern above; the model reports them as it reports a
    malformed literal (Python's message goes on with the string, quoted). *)
Definition float_of_str (s : text) : outcome float :=
  let (ds, rest) := digits_prefix s in
  let malformed := Raised (Exn ValueError "could not convert string to float") in
  match rest with
  | [] =>
      if decide (ds = []) then malformed
      else Returned (F64.of_decimal (digits_value 0 ds) 0)
  | c :: rest' =>
      let (fs, rest'') := digits_prefix rest' in
      if decide (c = point ∧ rest'' = [] ∧ ds ++ fs ≠ []) then
        Returned (F64.of_decimal (digits_value 0 (ds ++ fs)) (length fs))
      else malformed
  end.

(** Comparison of two numbers, [a < b]. *)
Definition num_ltb (a b : pyval) : outcome bool :=
  match as_float a, as_float b with
  | Some x, Some y => Returned (F64.ltb x y)
  | _, _ => Raised (Exn TypeError "'<' not supported between instances")
  end.

(** [min(a, b)] and [max(a, b)]: the first argument is kept unless the second
    is strictly smaller (strictly greater). *)
Definition py_min (a b : pyval) : outcome pyval :=
  lt ← num_ltb b a; mret (if lt : bool then b else a).

Definition py_max (a b : pyval) : outcome pyval :=
  gt ← num_ltb a b; mret (if gt : bool then b else a).

(** [a / y] for a float [y] *)
Definition truediv_float (a : pyval) (y : float) : outcome float :=
  match as_float a with
  | Some x =>
      match y with
      | S754_zero _ => Raised (Exn ZeroDivisionError "float division by zero")
      | _ => Returned (F64.div x y)
      end
  | None => Raised (Exn TypeError "unsupported operand type(s) for /")
  end.

(** The body of the [try]. *)
Definition parse_score_body (response_text : pyval) : outcome float :=
  match_ ← re_search response_text;
  match match_ with
  | Some m =>
      val ← float_of_str (m_group m);
      lo ← py_min (PyInt 10) (PyFloat val);
      val ← py_max (PyInt 0) lo;
      truediv_float val F64.ten
  | None => mret F64.zero
  end.

(** The bare [except:] turns every exception into [0.0]. *)
Definition parse_score (response_text : pyval) : float :=
  match parse_score_body response_text with
  | Returned x => x
  | Raised _ => F64.zero
  end.


(** ** The collaborators

    The retriever, the prompt template and the language model are objects the
    caller passes in.  Each is modelled by its one method, a computation over
    the state [X] of the world outside the interpreter: it may answer
    differently at each call, and it may raise.  A session pairs that world
    with the interpreter's store and a log of the calls made. *)

Record document := Document { page_content : string; metadata : list (string * string) }.

Inductive call :=
| RetrieverInvoke (question : string)
| PromptFormat (context question : string)
| LlmInvoke (prompt : string).

Record session (X : Type) := Session { world : X; calls : list call; local : store }.
Arguments Session {X} _ _ _.
Arguments world {X} _.
Arguments calls {X} _.
Arguments local {X} _.

Section Sessions.
Context {X : Type}.

(** A statement of the interpreter proper, run inside a session. *)
Definition in_store {A} (m : Py store A) : Py (session X) A :=
  fun σ =>
    let (st, o) := m (local σ) in
    (Session (world σ) (calls σ) st, o).

(** Code of an object passed in, run on the world outside the interpreter. *)
Definition in_world {A} (m : Py X A) : Py (session X) A :=
  fun σ =>
    let (w, o) := m (world σ) in
    (Session w (calls σ) (local σ), o).

(** A call to a collaborator: it is logged, then run on the world. *)
Definition external {A} (c : call) (method : Py X A) : Py (session X) A :=
  fun σ =>
    let (w, o) := method (world σ) in
    (Session w (calls σ ++ [c]) (local σ), o).

End Sessions.

(** [sep.join(parts)] is [String.concat sep parts]. *)

Fixpoint str_take (n : nat) (s : string) : string :=
  match n, s with
  | S n', String c s' => String c (str_take n' s')
  | _, _ => ""
  end.

(** [s[:stop]]: a negative [stop] counts from the end. *)
Definition slice_to (s : string) (stop : Z) : string :=
  let n := Z.of_nat (String.length s) in
  let stop' := if stop <? 0 then Z.max 0 (n + stop) else Z.min stop n in
  str_take (Z.to_nat stop') s.

(** ** [ask_rag] *)

(** The separator of the join: two line feeds. *)
Definition double_newline : string := String "010" (String "010" "").

Definition default_max_context_chars : Z := 1500.

Definition ask_rag {X}
    (retriever : string -> Py X (list document))
    (question : string)
    (qa_prompt : string -> string -> Py X string)
    (llm : string -> Py X pyval)
    (max_context_chars : Z)
  : Py (session X) (pyval * list document) :=
  docs ← external (RetrieverInvoke question) (retriever question);
  let context := String.concat double_newline (map page_content docs) in
  let context := slice_to context max_context_chars in
  prompt_text ← external (PromptFormat context question) (qa_prompt context question);
  resp ← external (LlmInvoke prompt_text) (llm prompt_text);
  mret (resp, docs).

(** ** [evaluate_answer_with_llm] *)

(** [relevancy_template.format(question=question, answer=answer)] *)
Definition relevancy_prompt (question answer : string) : string :=
  "You are an impartial judge. Evaluate the following answer based on the question provided.
Question: " +:+ question +:+ "
Answer: " +:+ answer +:+ "

Rate the Relevancy of the answer to the question on a scale from 0 to 10.
0 means the answer is completely irrelevant or does not address the question at all.
10 means the answer fully and perfectly addresses all parts of the question.

Return ONLY the number (0-10).".

(** [faithfulness_template.format(context=context, answer=answer)] *)
Definition faithfulness_prompt (context answer : string) : string :=
  "You are an impartial judge. Evaluate the following answer based on the context provided.
Context: " +:+ context +:+ "
Answer: " +:+ answer +:+ "

Rate the Faithfulness of the answer to the context on a scale from 0 to 10.
0 means the answer contains hallucinations or information not supported by the context.
10 means the answer is fully supported by the context.

Return ONLY the number (0-10).".

(** An argument of [evaluate_answer_with_llm]: [None], a string, or an
    object of another class, given by what [format(o, '')] and [bool(o)] do
    (code of the object's class, which may raise). *)
Inductive pyarg (X : Type) :=
| ArgNone
| ArgStr (s : string)
| ArgObj (fmt : Py X string) (truth : Py X bool).
Arguments ArgNone {X}.
Arguments ArgStr {X} s.
Arguments ArgObj {X} fmt truth.

(** [format(a, '')], what [str.format] does with the object it substitutes *)
Definition format_arg {X} (a : pyarg X) : Py X string :=
  match a with
  | ArgNone => mret "None"
  | ArgStr s => mret s
  | ArgObj fmt _ => fmt
  end.

(** [bool(a)], what [if a:] does *)
Definition truth_arg {X} (a : pyarg X) : Py X bool :=
  match a with
  | ArgNone => mret false
  | ArgStr "" => mret false
  | ArgStr _ => mret true
  | ArgObj _ truth => truth
  end.

(** The body of the [try].  Each [template.format(...)] formats its
    arguments in the order of the placeholders in the template. *)
Definition evaluate_body {X} (llm : string -> Py X pyval)
    (question answer context : pyarg X)
  : Py (session X) (float * float) :=
  q ← in_world (format_arg question);
  a ← in_world (format_arg answer);
  let rel_prompt := relevancy_prompt q a in
  rel_resp ← external (LlmInvoke rel_prompt) (llm rel_prompt);
  let rel_score := parse_score rel_resp in
  has_context ← in_world (truth_arg context);
  faith_score ←
    (if has_context : bool then
       c ← in_world (format_arg context);
       a ← in_world (format_arg answer);
       let faith_prompt := faithfulness_prompt c a in
       faith_resp ← external (LlmInvoke faith_prompt) (llm faith_prompt);
       mret (parse_score faith_resp)
     else mret F64.zero);
  mret (faith_score, rel_score).

Definition evaluate_answer_with_llm {X} (llm : string -> Py X pyval)
    (question answer context : pyarg X)
  : Py (session X) (float * float) :=
  try_except_Exception
    (evaluate_body llm question answer context)
    (fun e =>
       in_store (print ("Error during LLM evaluation: " +:+ exn_str e));;
       mret (F64.zero, F64.zero)).
(** * Specification-level definitions *)

(** The record after the four assignments. *)
Definition scored (vf vr rf rr : pyval) (d : dict) : dict :=
  <["rag_relev" := rr]> (<["rag_faith" := rf]> (<["vanilla_relev" := vr]> (<["vanilla_faith" := vf]> d))).


(** The reading of a score list that the aggregation is specified on: the
    records its references denote, those of them with the four fields present
    and not [None], and the values of one field across a list of records. *)
Definition present (d : dict) (k : string) : bool :=
  match d !! k with
  | Some v => negb (is_None v)
  | None => false
  end.

Definition fully_populated (d : dict) : bool := forallb (present d) score_keys.

Definition records (h : gmap loc dict) (l : list loc) : list dict :=
  omap (fun r => h !! r) l.

Definition qualifying (h : gmap loc dict) (l : list loc) : list dict :=
  List.filter fully_populated (records h l).

Definition column (k : string) (ds : list dict) : list float :=
  omap (fun d : dict => d !! k ≫= as_float) ds.

(** The sum and the mean of a list of floats, in float arithmetic, the terms
    taken in list order from [0.0]. *)
Definition float_sum (xs : list float) : float := fold_left F64.add xs F64.zero.

Definition arithmetic_mean (xs : list float) : float :=
  F64.div (float_sum xs) (F64.of_Z (len xs)).

(** Every reference of the list denotes an object. *)
Definition allocated (h : gmap loc dict) (l : list loc) : Prop :=
  Forall (fun r => is_Some (h !! r)) l.

(** The four fields of a record hold numbers. *)
Definition numeric (d : dict) : Prop :=
  Forall (fun k => is_Some (d !! k ≫= as_float)) score_keys.

(** A float of sign [s] that is not a NaN. *)
Definition signed (s : bool) (x : float) : Prop :=
  match x with
  | S754_zero s' | S754_infinity s' | S754_finite s' _ _ => s' = s
  | S754_nan => False
  end.

(** A shifted mantissa that is not negative and has at most [D] bits. *)
Definition below (D : Z) (mrs : shr_record) : Prop := 0 <= shr_m mrs < 2 ^ D.

(** A computation that writes to no object but [m], and prints nothing. *)
Definition touches_only (m : loc) (σ σ' : store) : Prop :=
  stdout σ' = stdout σ ∧ ∀ r, r ≠ m -> heap σ' !! r = heap σ !! r.

Definition writes_only {A} (m : loc) (c : Py store A) : Prop :=
  ∀ σ, touches_only m σ (c σ).1.

(** A computation that only reads. *)
Definition reads_only {A} (c : Py store A) : Prop := ∀ σ, (c σ).1 = σ.

(** ** Example data *)

Definition example_full_1 : dict :=
  {[ "question" := PyStr (ustr "What is retrieval-augmented generation?");
     "vanilla_faith" := PyFloat (F64.of_decimal 5 1);
     "vanilla_relev" := PyFloat (F64.of_decimal 25 2);
     "rag_faith" := PyFloat (F64.of_decimal 1 0);
     "rag_relev" := PyInt 1 ]}.

Definition example_full_2 : dict :=
  {[ "vanilla_faith" := PyFloat (F64.of_decimal 1 1);
     "vanilla_relev" := PyFloat (F64.of_decimal 2 1);
     "rag_faith" := PyFloat (F64.of_decimal 3 1);
     "rag_relev" := PyFloat (F64.of_decimal 7 1) ]}.

(** never scored *)
Definition example_partial : dict :=
  {[ "question" := PyStr (ustr "Who wrote it?"); "vanilla_faith" := PyFloat (F64.of_decimal 9 1) ]}.

(** scored, but with a [None] *)
Definition example_null : dict :=
  {[ "vanilla_faith" := PyFloat (F64.of_decimal 9 1);
     "vanilla_relev" := PyNone;
     "rag_faith" := PyFloat (F64.of_decimal 9 1);
     "rag_relev" := PyFloat (F64.of_decimal 9 1) ]}.

Definition example_heap : gmap loc dict :=
  {[ 1%positive := example_full_1; 2%positive := example_partial;
     3%positive := example_null; 4%positive := example_full_2 ]}.

Definition example_scores : list loc := [1; 2; 3; 4]%positive.

Definition example_unscored : list loc := [2; 3; 2]%positive.

(** ** Numbers in a text, as the specification words them *)

Fixpoint all_digits (s : text) : bool :=
  match s with
  | [] => true
  | c :: s' => is_digit c && all_digits s'
  end.

(** An unsigned integer: one digit or more, nothing else. *)
Definition unsigned_integer (s : text) : Prop := s ≠ [] ∧ all_digits s = true.

(** An integer or decimal number without sign or exponent, and its value:
    the double nearest to the number the digits spell. *)
Inductive literal_value : text -> float -> Prop :=
| value_integer ds :
    unsigned_integer ds ->
    literal_value ds (F64.of_decimal (digits_value 0 ds) 0)
| value_decimal ds fs :
    unsigned_integer ds -> unsigned_integer fs ->
    literal_value (ds ++ point :: fs)
                  (F64.of_decimal (digits_value 0 (ds ++ fs)) (length fs)).

Definition number_literal (m : text) : Prop := ∃ v, literal_value m v.

(** [m] is the substring of [s] that starts at offset [i]. *)
Definition occurs_at (s : text) (i : nat) (m : text) : Prop :=
  ∃ pre post, s = pre ++ m ++ post ∧ length pre = i.

(** The first number of [s]: no number starts before it, and no number that
    starts where it starts is longer. *)
Definition first_number (s : text) (i : nat) (m : text) : Prop :=
  occurs_at s i m
  ∧ number_literal m
  ∧ (∀ j m', occurs_at s j m' -> number_literal m' -> (i <= j)%nat)
  ∧ (∀ m', occurs_at s i m' -> number_literal m' -> (length m' <= length m)%nat).


Definition clamp (lo hi v : float) : float :=
  if F64.ltb v lo then lo else if F64.ltb hi v then hi else v.

(** What follows a maximal run of digits. *)
Definition starts_nondigit (s : text) : Prop :=
  match s with
  | [] => True
  | c :: _ => is_digit c = false
  end.

(** What [s[:n]] leaves out. *)
Fixpoint str_drop (n : nat) (s : string) : string :=
  match n, s with
  | S n', String _ s' => str_drop n' s'
  | _, _ => s
  end.

(** The relevancy half of the judge has run from the world [w] to the
    world [w1]: the question and the answer were formatted to [q] and [a],
    and the model answered [r1]. *)
Definition relevancy_answered {X} (llm : string -> Py X pyval)
    (question answer : pyarg X) (w : X) (q a : string) (r1 : pyval) (w1 : X) : Prop :=
  ∃ wq wa,
    format_arg question w = (wq, Returned q)
    ∧ format_arg answer wq = (wa, Returned a)
    ∧ llm (relevancy_prompt q a) wa = (w1, Returned r1).

(** Something inside the [try] of the judge raises [e]: the formatting of a
    prompt (of one of its arguments), a model invocation, or the test of the
    context.  The places are listed in the order the code reaches them; the
    last two arguments are the world after the failure and the model
    invocations made. *)
Inductive judge_fails {X} (llm : string -> Py X pyval) (question answer context : pyarg X)
    (w : X) (e : exn) : X -> list call -> Prop :=
| fails_formatting_question w' :
    format_arg question w = (w', Raised e) ->
    judge_fails llm question answer context w e w' []
| fails_formatting_answer wq q w' :
    format_arg question w = (wq, Returned q) ->
    format_arg answer wq = (w', Raised e) ->
    judge_fails llm question answer context w e w' []
| fails_on_relevancy wq q wa a w' :
    format_arg question w = (wq, Returned q) ->
    format_arg answer wq = (wa, Returned a) ->
    llm (relevancy_prompt q a) wa = (w', Raised e) ->
    judge_fails llm question answer context w e w' [LlmInvoke (relevancy_prompt q a)]
| fails_testing_context q a r1 w1 w' :
    relevancy_answered llm question answer w q a r1 w1 ->
    truth_arg context w1 = (w', Raised e) ->
    judge_fails llm question answer context w e w' [LlmInvoke (relevancy_prompt q a)]
| fails_formatting_context q a r1 w1 wt w' :
    relevancy_answered llm question answer w q a r1 w1 ->
    truth_arg context w1 = (wt, Returned true) ->
    format_arg context wt = (w', Raised e) ->
    judge_fails llm question answer context w e w' [LlmInvoke (relevancy_prompt q a)]
| fails_formatting_answer_again q a r1 w1 wt wc c w' :
    relevancy_answered llm question answer w q a r1 w1 ->
    truth_arg context w1 = (wt, Returned true) ->
    format_arg context wt = (wc, Returned c) ->
    format_arg answer wc = (w', Raised e) ->
    judge_fails llm question answer context w e w' [LlmInvoke (relevancy_prompt q a)]
| fails_on_faithfulness q a r1 w1 wt wc c wa a' w' :
    relevancy_answered llm question answer w q a r1 w1 ->
    truth_arg context w1 = (wt, Returned true) ->
    format_arg context wt = (wc, Returned c) ->
    format_arg answer wc = (wa, Returned a') ->
    llm (faithfulness_prompt c a') wa = (w', Raised e) ->
    judge_fails llm question answer context w e w'
      [LlmInvoke (relevancy_prompt q a); LlmInvoke (faithfulness_prompt c a')].

(** The documents' texts with a blank line between each two: the join the
    specification describes, written out with its two line feeds. *)
Fixpoint joined_by_blank_lines (texts : list string) : string :=
  match texts with
  | [] => ""
  | [t] => t
  | t :: rest => t +:+ String "010" (String "010" (joined_by_blank_lines rest))
  end.

(** ** Example collaborators

    The world of the examples is a counter of the model invocations made. *)

(** A language model that answers with a rating, differently at each call. *)
Definition example_llm (prompt : string) : Py nat pyval :=
  fun n =>
    (S n, Returned (PyStr (ustr (match n with
                                 | O => "Score: 8"
                                 | _ => "I would rate this 6.5 out of 10"
                                 end)))).

(** A language model whose second invocation fails. *)
Definition example_llm_failing (prompt : string) : Py nat pyval :=
  fun n =>
    match n with
    | O => (S n, Returned (PyStr (ustr "9")))
    | _ => (S n, Raised (Exn RuntimeError "model unavailable"))
    end.


Definition example_docs : list document :=
  [Document "alpha" [("source", "a.txt")]; Document "beta" []].

Definition example_retriever (question : string) : Py nat (list document) :=
  fun n => (n, Returned example_docs).

Definition example_qa_prompt (context question : string) : Py nat string :=
  fun n => (n, Returned ("Context: " +:+ context +:+ " Question: " +:+ question)).

Definition example_session : session nat := Session 0%nat [] (Store ∅ []).

(** A string, or [None], as an argument. *)
Definition arg_of_option {X} (o : option string) : pyarg X :=
  match o with
  | Some s => ArgStr s
  | None => ArgNone
  end.


(** A record whose four fields are present and not [None], one of them a
    string. *)
Definition example_text_score : dict :=
  {[ "vanilla_faith" := PyFloat (F64.of_decimal 5 1);
     "vanilla_relev" := PyStr (ustr "0.5");
     "rag_faith" := PyFloat (F64.of_decimal 5 1);
     "rag_relev" := PyFloat (F64.of_decimal 5 1) ]}.

Definition example_heap_text : gmap loc dict :=
  {[ 1%positive := example_full_1; 2%positive := example_text_score ]}.

(** The four fields of a record hold no object of another class: each is
    absent, [None], an [int], a [float] or a [str]. *)
Definition plain_fields (d : dict) : bool :=
  forallb (fun k => match d !! k with Some (PyObj _) => false | _ => true end) score_keys.

(** What [metrics[k] += s[k]] raises on a string, and on an integer beyond
    the range of a float. *)
Definition operand_error (e : exn) : Prop :=
  e = Exn TypeError "unsupported operand type(s) for +=: 'float' and 'str'"
  ∨ e = Exn OverflowError "int too large to convert to float".

(** A run that ends in one of them. *)
Definition fails_on_operand {A} (run : store * outcome A) : Prop :=
  ∃ σ' e, run = (σ', Raised e) ∧ operand_error e.

(** The summary of a list of qualifying records. *)
Definition summary (Q : list dict) : dict :=
  match Q with
  | [] => metrics_dict (PyFloat F64.zero) (PyFloat F64.zero) (PyFloat F64.zero)
                       (PyFloat F64.zero) (PyInt 0)
  | _ =>
      let avg k := PyFloat (F64.div (float_sum (column k Q)) (F64.of_Z (len Q))) in
      metrics_dict (avg "vanilla_faith") (avg "vanilla_relev") (avg "rag_faith")
                   (avg "rag_relev") (PyInt (len Q))
  end.


(** A collaborator of [ask_rag] raises [e]: the retriever, or the prompt
    template after the retriever has answered, or the model after both have.
    The last two arguments are the world after the failure and the calls
    made. *)
Inductive rag_fails {X} (retriever : string -> Py X (list document)) (question : string)
    (qa_prompt : string -> string -> Py X string) (llm : string -> Py X pyval)
    (max_context_chars : Z) (w : X) (e : exn) : X -> list call -> Prop :=
| fails_on_retrieval w' :
    retriever question w = (w', Raised e) ->
    rag_fails retriever question qa_prompt llm max_context_chars w e w'
      [RetrieverInvoke question]
| fails_on_format w1 docs w' :
    retriever question w = (w1, Returned docs) ->
    qa_prompt (slice_to (String.concat double_newline (map page_content docs))
                        max_context_chars) question w1 = (w', Raised e) ->
    rag_fails retriever question qa_prompt llm max_context_chars w e w'
      [RetrieverInvoke question;
       PromptFormat (slice_to (String.concat double_newline (map page_content docs))
                              max_context_chars) question]
| fails_on_model w1 docs w2 prompt_text w' :
    retriever question w = (w1, Returned docs) ->
    qa_prompt (slice_to (String.concat double_newline (map page_content docs))
                        max_context_chars) question w1 = (w2, Returned prompt_text) ->
    llm prompt_text w2 = (w', Raised e) ->
    rag_fails retriever question qa_prompt llm max_context_chars w e w'
      [RetrieverInvoke question;
       PromptFormat (slice_to (String.concat double_newline (map page_content docs))
                              max_context_chars) question;
       LlmInvoke prompt_text].
(** * Properties *)

(** ** Binary64: rounding keeps signs and small integers finite *)

Lemma digits2_pos_bound (p : positive) (D : Z) :
  Z.pos p < 2 ^ D -> 0 <= D -> Z.pos (digits2_pos p) <= D.
Proof.
  revert D. induction p as [p IH|p IH|]; intros D Hp HD; simpl.
  - assert (D <> 0) by (intros ->; simpl in Hp; lia).
    rewrite Pos2Z.inj_succ. specialize (IH (D - 1)).
    replace D with (Z.succ (D - 1)) in Hp by lia. rewrite Z.pow_succ_r in Hp by lia. lia.
  - assert (D <> 0) by (intros ->; simpl in Hp; lia).
    rewrite Pos2Z.inj_succ. specialize (IH (D - 1)).
    replace D with (Z.succ (D - 1)) in Hp by lia. rewrite Z.pow_succ_r in Hp by lia. lia.
  - assert (D <> 0) by (intros ->; simpl in Hp; lia). lia.
Qed.

Lemma Zdigits2_bound (m D : Z) : 0 <= m < 2 ^ D -> 0 <= D -> 0 <= Zdigits2 m <= D.
Proof.
  intros [H0 Hm] HD. destruct m as [|p|p]; simpl; [lia| |lia].
  split; [lia|]. by apply digits2_pos_bound.
Qed.

Lemma shr_1_below D mrs : below D mrs -> below D (shr_1 mrs).
Proof.
  unfold below. destruct mrs as [m r s]. simpl.
  destruct m as [|[p|p|]|[p|p|]]; simpl; lia.
Qed.

Lemma iter_pos_below D p mrs : below D mrs -> below D (SpecFloat.iter_pos shr_1 p mrs).
Proof.
  revert mrs. induction p as [p IH|p IH|]; intros mrs H; simpl; auto using shr_1_below.
Qed.

Section Bounds.
Import F64.

Lemma shr_below D mrs e n : below D mrs -> below D (fst (shr mrs e n)).
Proof. intros H. destruct n; simpl; auto using iter_pos_below. Qed.

Lemma shr_exp mrs e n : snd (shr mrs e n) = Z.max e (e + n).
Proof. destruct n; simpl; lia. Qed.

Lemma shr_record_of_loc_m m l : shr_m (shr_record_of_loc m l) = m.
Proof. by destruct l as [|[]]. Qed.

Lemma round_nearest_even_bound m l : m <= round_nearest_even m l <= m + 1.
Proof. destruct l as [|[]]; simpl; try lia. destruct (Z.even m); lia. Qed.

(** Rounding a mantissa that is not negative gives a float of the sign
    asked for, never a NaN. *)
Lemma binary_round_aux_signed s m e l :
  0 <= m -> signed s (binary_round_aux prec emax s m e l).
Proof.
  intros Hm. unfold binary_round_aux, shr_fexp.
  destruct (shr (shr_record_of_loc m l) e _) as [mrs' e'] eqn:E1.
  destruct (shr (shr_record_of_loc (round_nearest_even _ _) loc_Exact) e' _) as [mrs'' e''] eqn:E2.
  assert (H1 : below (Z.max 0 (Z.log2 m + 1)) mrs').
  { change mrs' with (fst (mrs', e')). rewrite <- E1. apply shr_below.
    unfold below. rewrite shr_record_of_loc_m. split; [done|].
    destruct (Z.eq_dec m 0) as [->|]; [simpl; lia|].
    rewrite Z.max_r by (pose proof (Z.log2_nonneg m); lia).
    apply Z.log2_lt_pow2; lia. }
  assert (H2 : 0 <= shr_m mrs'').
  { change mrs'' with (fst (mrs'', e'')). rewrite <- E2.
    pose proof (round_nearest_even_bound (shr_m mrs') (loc_of_shr_record mrs')) as Hr.
    destruct H1 as [H1 _].
    eapply (shr_below (Z.log2 (round_nearest_even (shr_m mrs') (loc_of_shr_record mrs')) + 1)).
    unfold below. rewrite shr_record_of_loc_m. split; [lia|].
    set (x := round_nearest_even _ _) in *.
    destruct (Z.eq_dec x 0) as [->|]; [simpl; lia|].
    apply Z.log2_lt_pow2; lia. }
  destruct (shr_m mrs'') as [|p|p]; simpl; [done| |lia].
  by destruct (_ <=? _).
Qed.

Lemma binary_round_aux_finite s m e l D :
  0 <= m < 2 ^ D -> 0 <= D <= 400 -> e <= 0 ->
  match binary_round_aux prec emax s m e l with
  | S754_zero _ | S754_finite _ _ _ => True
  | _ => False
  end.
Proof.
  intros Hm HD He. unfold binary_round_aux, shr_fexp.
  destruct (shr (shr_record_of_loc m l) e _) as [mrs' e'] eqn:E1.
  destruct (shr (shr_record_of_loc (round_nearest_even _ _) loc_Exact) e' _) as [mrs'' e''] eqn:E2.
  pose proof (Zdigits2_bound m D Hm (proj1 HD)) as Hd.
  assert (H1 : below D mrs').
  { change mrs' with (fst (mrs', e')). rewrite <- E1. apply shr_below.
    unfold below. by rewrite shr_record_of_loc_m. }
  assert (He' : e' <= D).
  { change e' with (snd (mrs', e')). rewrite <- E1, shr_exp.
    unfold fexp, emin, prec, emax. lia. }
  pose proof (round_nearest_even_bound (shr_m mrs') (loc_of_shr_record mrs')) as Hr.
  set (x := round_nearest_even _ _) in *.
  assert (Hx : 0 <= x < 2 ^ (D + 1)).
  { destruct H1. rewrite Z.pow_add_r by lia. lia. }
  pose proof (Zdigits2_bound x (D + 1) Hx ltac:(lia)) as Hdx.
  assert (H2 : below (D + 1) mrs'').
  { change mrs'' with (fst (mrs'', e'')). rewrite <- E2. apply shr_below.
    unfold below. by rewrite shr_record_of_loc_m. }
  assert (He'' : e'' <= emax - prec).
  { change e'' with (snd (mrs'', e'')). rewrite <- E2, shr_exp.
    unfold fexp, emin, prec, emax. lia. }
  destruct H2 as [H2 _]. destruct (shr_m mrs'') as [|p|p]; [done| |lia].
  destruct (Z.leb_spec e'' (emax - prec)); [done|lia].
Qed.

Lemma iter_xO_pow (p d : positive) : Z.pos (Pos.iter xO p d) = Z.pos p * 2 ^ Z.pos d.
Proof.
  induction d as [|d IH] using Pos.peano_ind.
  - simpl. lia.
  - rewrite Pos.iter_succ, Pos2Z.inj_succ, Z.pow_succ_r by lia.
    rewrite Pos2Z.inj_xO, IH. lia.
Qed.

Lemma binary_normalize_finite z :
  0 <= z < 2 ^ 64 ->
  match binary_normalize prec emax z 0 false with
  | S754_zero _ | S754_finite _ _ _ => True
  | _ => False
  end.
Proof.
  intros Hz. destruct z as [|p|p]; [done| |lia]. simpl.
  unfold binary_round.
  pose proof (Zdigits2_bound (Z.pos p) 64 Hz ltac:(lia)) as Hd. simpl in Hd.
  destruct (shl_align p 0 _) as [mz ez] eqn:E.
  unfold shl_align in E.
  destruct (fexp prec emax (Z.pos (digits2_pos p) + 0) - 0) as [|d|d] eqn:Ed;
    inversion E; subst mz ez; clear E.
  - apply (binary_round_aux_finite _ _ _ _ 64); lia.
  - apply (binary_round_aux_finite _ _ _ _ 64); lia.
  - apply (binary_round_aux_finite _ _ _ _ (64 + Z.pos d)).
    + rewrite iter_xO_pow, Z.pow_add_r by lia.
      assert (0 < 2 ^ Z.pos d) by (apply Z.pow_pos_nonneg; lia). nia.
    + unfold fexp, emin, prec, emax in Ed. lia.
    + unfold fexp, emin, prec, emax in *. lia.
Qed.
End Bounds.

Lemma float_of_int_ssize z :
  0 <= z <= PY_SSIZE_T_MAX -> float_of_int z = Returned (F64.of_Z z).
Proof.
  intros Hz. unfold float_of_int, F64.of_Z.
  pose proof (binary_normalize_finite z) as H.
  destruct (binary_normalize F64.prec F64.emax z 0 false); simpl; try done;
    exfalso; apply H; unfold PY_SSIZE_T_MAX in Hz; lia.
Qed.

Lemma of_decimal_signed n k : signed false (F64.of_decimal n k).
Proof.
  destruct n as [|p]; [done|]. unfold F64.of_decimal, F64.div, SFdiv.
  destruct (SFdiv_core_binary _ _ _ _ _ _) as [[mz ez] lz] eqn:E.
  apply binary_round_aux_signed.
  unfold SFdiv_core_binary in E.
  set (m' := match _ with Z0 => Z.pos p | Z.pos _ => _ | Z.neg _ => 0 end) in E.
  assert (Hm' : 0 <= m').
  { subst m'. destruct (_ - _ - _); try lia. apply Z.shiftl_nonneg. lia. }
  pose proof (Z.div_pos m' (Z.pos (F64.pow10 k)) Hm' ltac:(lia)) as Hq.
  unfold Z.div in Hq. destruct (Z.div_eucl m' _) as [q r]. inversion E. by subst.
Qed.

(** ** Running the basic statements *)

Lemma bind_returned {Σ A B} (m : Py Σ A) (k : A -> Py Σ B) σ σ' a :
  m σ = (σ', Returned a) -> (m ≫= k) σ = k a σ'.
Proof. intros Hm. unfold mbind, py_bind. by rewrite Hm. Qed.

Lemma bind_raised {Σ A B} (m : Py Σ A) (k : A -> Py Σ B) σ σ' e :
  m σ = (σ', Raised e) -> (m ≫= k) σ = (σ', Raised e).
Proof. intros Hm. unfold mbind, py_bind. by rewrite Hm. Qed.

Lemma list_getitem_in_range {A} (l : list A) (i : Z) (x : A) σ :
  0 <= i -> l !! Z.to_nat i = Some x -> list_getitem l i σ = (σ, Returned x).
Proof.
  intros Hi Hx. unfold list_getitem.
  destruct (Z.ltb_spec i 0) as [?|_]; [lia|].
  destruct (Z.leb_spec 0 i) as [_|?]; [|lia].
  by rewrite Hx.
Qed.

Lemma deref_run r d σ : heap σ !! r = Some d -> deref r σ = (σ, Returned d).
Proof. intros Hr. unfold deref. by rewrite Hr. Qed.

Lemma dict_setitem_run r k v d σ :
  heap σ !! r = Some d ->
  dict_setitem r k v σ = (Store (<[r := <[k := v]> d]> (heap σ)) (stdout σ), Returned tt).
Proof. intros Hr. unfold dict_setitem. by rewrite (bind_returned _ _ _ _ _ (deref_run _ _ _ Hr)). Qed.

Lemma dict_getitem_run r k v d σ :
  heap σ !! r = Some d -> d !! k = Some v -> dict_getitem r k σ = (σ, Returned v).
Proof.
  intros Hr Hk. unfold dict_getitem.
  rewrite (bind_returned _ _ _ _ _ (deref_run _ _ _ Hr)). by rewrite Hk.
Qed.

Lemma dict_contains_run r k d σ :
  heap σ !! r = Some d ->
  dict_contains r k σ = (σ, Returned (bool_decide (is_Some (d !! k)))).
Proof. intros Hr. unfold dict_contains. by rewrite (bind_returned _ _ _ _ _ (deref_run _ _ _ Hr)). Qed.

(** ** [score_question] *)

Lemma score_question_in_range σ l index vf vr rf rr r d :
  0 <= index - 1 < len l ->
  l !! Z.to_nat (index - 1) = Some r ->
  heap σ !! r = Some d ->
  score_question l index vf vr rf rr σ
  = (Store (<[r := scored vf vr rf rr d]> (heap σ)) (stdout σ), Returned tt).
Proof.
  intros [Hlo Hhi] Hr Hd. unfold score_question.
  destruct (Z.leb_spec 0 (index - 1)) as [_|?]; [|lia].
  destruct (Z.ltb_spec (index - 1) (len l)) as [_|?]; [|lia]. simpl.
  rewrite (bind_returned _ _ _ _ _ (list_getitem_in_range l _ r σ Hlo Hr)).
  rewrite (bind_returned _ _ _ _ _ (dict_setitem_run r _ vf d σ Hd)).
  set (σ1 := Store _ _).
  rewrite (bind_returned _ _ _ _ _ (list_getitem_in_range l _ r σ1 Hlo Hr)).
  rewrite (bind_returned _ _ _ _ _ (dict_setitem_run r _ vr _ σ1 (lookup_insert_eq _ _ _))).
  set (σ2 := Store _ _).
  rewrite (bind_returned _ _ _ _ _ (list_getitem_in_range l _ r σ2 Hlo Hr)).
  rewrite (bind_returned _ _ _ _ _ (dict_setitem_run r _ rf _ σ2 (lookup_insert_eq _ _ _))).
  set (σ3 := Store _ _).
  rewrite (bind_returned _ _ _ _ _ (list_getitem_in_range l _ r σ3 Hlo Hr)).
  rewrite (dict_setitem_run r _ rr _ σ3 (lookup_insert_eq _ _ _)).
  subst σ1 σ2 σ3. simpl. by rewrite !insert_insert_eq.
Qed.

(** ** [compute_metrics]: what it returns *)

Lemma all_present_run s keys d σ :
  heap σ !! s = Some d ->
  all_present s keys σ = (σ, Returned (forallb (present d) keys)).
Proof.
  intros Hs. induction keys as [|k keys IH]; [done|]. simpl.
  rewrite (bind_returned _ _ _ _ _ (dict_contains_run s k d σ Hs)).
  unfold present at 1. destruct (d !! k) as [v|] eqn:Hk.
  - rewrite bool_decide_eq_true_2 by eauto.
    rewrite (bind_returned _ _ _ _ _ (dict_getitem_run s k v d σ Hs Hk)).
    by destruct (is_None v).
  - rewrite bool_decide_eq_false_2; [done|]. by intros [? ?].
Qed.

Lemma float_add_as_float a v x :
  as_float v = Some x -> py_add (PyFloat a) v = Returned (PyFloat (F64.add a x)).
Proof.
  destruct v as [|z|y|?|?]; simpl; try done.
  - destruct (float_of_int z); [|done]. by intros [= ->].
  - by intros [= ->].
Qed.

Lemma iadd_item_run σ m km s ks dm ds a v x :
  heap σ !! m = Some dm -> heap σ !! s = Some ds ->
  dm !! km = Some (PyFloat a) -> ds !! ks = Some v -> as_float v = Some x ->
  iadd_item m km s ks σ
  = (Store (<[m := <[km := PyFloat (F64.add a x)]> dm]> (heap σ)) (stdout σ), Returned tt).
Proof.
  intros Hm Hs Ha Hv Hx. unfold iadd_item.
  rewrite (bind_returned _ _ _ _ _ (dict_getitem_run m km _ dm σ Hm Ha)).
  rewrite (bind_returned _ _ _ _ _ (dict_getitem_run s ks _ ds σ Hs Hv)).
  rewrite (float_add_as_float a v x Hx). unfold lift_outcome.
  erewrite bind_returned by reflexivity.
  by apply dict_setitem_run.
Qed.

Lemma itruediv_item_run σ m km dm a n :
  heap σ !! m = Some dm -> dm !! km = Some (PyFloat a) ->
  0 < n <= PY_SSIZE_T_MAX ->
  itruediv_item m km n σ
  = (Store (<[m := <[km := PyFloat (F64.div a (F64.of_Z n))]> dm]> (heap σ)) (stdout σ),
     Returned tt).
Proof.
  intros Hm Ha Hn. unfold itruediv_item.
  rewrite (bind_returned _ _ _ _ _ (dict_getitem_run m km _ dm σ Hm Ha)).
  unfold py_truediv_int, float_truediv_int. rewrite float_of_int_ssize by lia.
  destruct (Z.eqb_spec n 0) as [?|_]; [lia|]. unfold lift_outcome.
  erewrite bind_returned by reflexivity.
  by apply dict_setitem_run.
Qed.

(** Assignments to the keys of the metrics dictionary. *)
Ltac metrics_dict_eq :=
  unfold metrics_dict; apply map_eq; intros ?;
  repeat (rewrite lookup_insert; case_decide; [subst; try done|]);
  rewrite ?lookup_singleton; repeat case_decide; subst; try done.

Lemma metrics_dict_vf v a b c d n :
  <["vanilla_faith_avg" := v]> (metrics_dict a b c d n) = metrics_dict v b c d n.
Proof. metrics_dict_eq. Qed.
Lemma metrics_dict_vr v a b c d n :
  <["vanilla_relev_avg" := v]> (metrics_dict a b c d n) = metrics_dict a v c d n.
Proof. metrics_dict_eq. Qed.
Lemma metrics_dict_rf v a b c d n :
  <["rag_faith_avg" := v]> (metrics_dict a b c d n) = metrics_dict a b v d n.
Proof. metrics_dict_eq. Qed.
Lemma metrics_dict_rr v a b c d n :
  <["rag_relev_avg" := v]> (metrics_dict a b c d n) = metrics_dict a b c v n.
Proof. metrics_dict_eq. Qed.
Lemma metrics_dict_count v a b c d n :
  <["count" := v]> (metrics_dict a b c d n) = metrics_dict a b c d v.
Proof. metrics_dict_eq. Qed.

Lemma metrics_dict_lookup a b c d n :
  metrics_dict a b c d n !! "vanilla_faith_avg" = Some a
  ∧ metrics_dict a b c d n !! "vanilla_relev_avg" = Some b
  ∧ metrics_dict a b c d n !! "rag_faith_avg" = Some c
  ∧ metrics_dict a b c d n !! "rag_relev_avg" = Some d
  ∧ metrics_dict a b c d n !! "count" = Some n.
Proof. by vm_compute. Qed.

Lemma numeric_fields d :
  numeric d ->
  ∃ v1 v2 v3 v4 x1 x2 x3 x4,
    (d !! "vanilla_faith" = Some v1 ∧ as_float v1 = Some x1)
    ∧ (d !! "vanilla_relev" = Some v2 ∧ as_float v2 = Some x2)
    ∧ (d !! "rag_faith" = Some v3 ∧ as_float v3 = Some x3)
    ∧ (d !! "rag_relev" = Some v4 ∧ as_float v4 = Some x4).
Proof.
  unfold numeric, score_keys. rewrite !Forall_cons.
  intros ([x1 H1] & [x2 H2] & [x3 H3] & [x4 H4] & _).
  apply bind_Some in H1 as (v1 & ? & ?). apply bind_Some in H2 as (v2 & ? & ?).
  apply bind_Some in H3 as (v3 & ? & ?). apply bind_Some in H4 as (v4 & ? & ?).
  by exists v1, v2, v3, v4, x1, x2, x3, x4.
Qed.

Lemma qualifying_cons h s rest d :
  h !! s = Some d ->
  qualifying h (s :: rest)
  = if fully_populated d then d :: qualifying h rest else qualifying h rest.
Proof. intros Hs. unfold qualifying, records. simpl. by rewrite Hs. Qed.

Lemma column_cons k d ds v x :
  d !! k = Some v -> as_float v = Some x -> column k (d :: ds) = x :: column k ds.
Proof. intros Hk Hx. unfold column. simpl. by rewrite Hk; simpl; rewrite Hx. Qed.

Lemma len_cons {A} (x : A) l : len (x :: l) = len l + 1.
Proof. unfold len. simpl length. lia. Qed.

Lemma compute_metrics_loop_run h out m l a1 a2 a3 a4 cnt n :
  h !! m = None -> allocated h l -> Forall numeric (qualifying h l) ->
  compute_metrics_loop m l n
    (Store (<[m := metrics_dict (PyFloat a1) (PyFloat a2) (PyFloat a3) (PyFloat a4) cnt]> h) out)
  = (Store (<[m := metrics_dict
                    (PyFloat (fold_left F64.add (column "vanilla_faith" (qualifying h l)) a1))
                    (PyFloat (fold_left F64.add (column "vanilla_relev" (qualifying h l)) a2))
                    (PyFloat (fold_left F64.add (column "rag_faith" (qualifying h l)) a3))
                    (PyFloat (fold_left F64.add (column "rag_relev" (qualifying h l)) a4))
                    cnt]> h) out,
     Returned (n + len (qualifying h l))).
Proof.
  intros Hm. revert a1 a2 a3 a4 n.
  induction l as [|s rest IH]; intros a1 a2 a3 a4 n Hall Hnum.
  { simpl. unfold mret, py_ret. do 3 f_equal. unfold len. simpl. lia. }
  apply Forall_cons in Hall as [[d Hs] Hall].
  assert (Hne : m ≠ s) by congruence.
  rewrite (qualifying_cons h s rest d Hs) in Hnum |- *.
  cbn [compute_metrics_loop].
  erewrite bind_returned; cycle 1.
  { apply (all_present_run s score_keys d). simpl. by rewrite lookup_insert_ne. }
  fold (fully_populated d). destruct (fully_populated d).
  2: { by apply IH. }
  apply Forall_cons in Hnum as [Hd Hnum].
  destruct (numeric_fields d Hd)
    as (v1 & v2 & v3 & v4 & x1 & x2 & x3 & x4 & [K1 F1] & [K2 F2] & [K3 F3] & [K4 F4]).
  rewrite (column_cons _ d _ v1 x1 K1 F1), (column_cons _ d _ v2 x2 K2 F2),
    (column_cons _ d _ v3 x3 K3 F3), (column_cons _ d _ v4 x4 K4 F4).
  rewrite len_cons. cbn [fold_left].
  erewrite bind_returned; cycle 1.
  { eapply iadd_item_run; simpl;
      [apply lookup_insert_eq | by rewrite lookup_insert_ne
      | apply metrics_dict_lookup | exact K1 | exact F1]. }
  simpl. rewrite insert_insert_eq, metrics_dict_vf.
  erewrite bind_returned; cycle 1.
  { eapply iadd_item_run; simpl;
      [apply lookup_insert_eq | by rewrite lookup_insert_ne
      | apply metrics_dict_lookup | exact K2 | exact F2]. }
  simpl. rewrite insert_insert_eq, metrics_dict_vr.
  erewrite bind_returned; cycle 1.
  { eapply iadd_item_run; simpl;
      [apply lookup_insert_eq | by rewrite lookup_insert_ne
      | apply metrics_dict_lookup | exact K3 | exact F3]. }
  simpl. rewrite insert_insert_eq, metrics_dict_rf.
  erewrite bind_returned; cycle 1.
  { eapply iadd_item_run; simpl;
      [apply lookup_insert_eq | by rewrite lookup_insert_ne
      | apply metrics_dict_lookup | exact K4 | exact F4]. }
  simpl. rewrite insert_insert_eq, metrics_dict_rr.
  rewrite (IH _ _ _ _ (n + 1) Hall Hnum). f_equal. f_equal. lia.
Qed.

Lemma fresh_unallocated (h : gmap loc dict) : h !! fresh (dom h) = None.
Proof. apply not_elem_of_dom, is_fresh. Qed.

Lemma length_records h l : (length (records h l) <= length l)%nat.
Proof.
  unfold records. induction l as [|r l IH]; [done|]. cbn [omap list_omap].
  destruct (h !! r); cbn [length]; lia.
Qed.

Lemma len_qualifying h l : 0 <= len (qualifying h l) <= len l.
Proof.
  unfold len, qualifying. split; [lia|].
  apply inj_le. etrans; [apply List.filter_length_le|]. apply length_records.
Qed.

Lemma compute_metrics_zero h out l :
  allocated h l -> qualifying h l = [] ->
  compute_metrics l (Store h out)
  = (Store (<[fresh (dom h) := metrics_dict (PyFloat F64.zero) (PyFloat F64.zero)
                                 (PyFloat F64.zero) (PyFloat F64.zero) (PyInt 0)]> h) out,
     Returned (fresh (dom h))).
Proof.
  intros Hall HQ. unfold compute_metrics.
  erewrite bind_returned by reflexivity. cbn [heap stdout].
  erewrite bind_returned; cycle 1.
  { apply compute_metrics_loop_run; [apply fresh_unallocated|done|].
    rewrite HQ. constructor. }
  rewrite HQ. cbn [column omap fold_left len length Z.of_nat Z.add Z.ltb Z.compare].
  erewrite bind_returned by reflexivity.
  erewrite bind_returned; cycle 1.
  { apply dict_setitem_run. apply lookup_insert_eq. }
  cbn [heap stdout]. by rewrite insert_insert_eq, metrics_dict_count.
Qed.

Lemma compute_metrics_some h out l :
  allocated h l -> Forall numeric (qualifying h l) ->
  qualifying h l ≠ [] -> len l <= PY_SSIZE_T_MAX ->
  let Q := qualifying h l in
  let avg k := PyFloat (F64.div (float_sum (column k Q)) (F64.of_Z (len Q))) in
  compute_metrics l (Store h out)
  = (Store (<[fresh (dom h) := metrics_dict (avg "vanilla_faith") (avg "vanilla_relev")
                                 (avg "rag_faith") (avg "rag_relev") (PyInt (len Q))]> h) out,
     Returned (fresh (dom h))).
Proof.
  intros Hall Hnum HQ Hlen Q avg. unfold compute_metrics.
  erewrite bind_returned by reflexivity. cbn [heap stdout].
  erewrite bind_returned; cycle 1.
  { apply compute_metrics_loop_run; [apply fresh_unallocated|done|done]. }
  fold Q. rewrite Z.add_0_l.
  pose proof (len_qualifying h l) as HlenQ. fold Q in HlenQ.
  assert (0 < len Q) as Hpos.
  { unfold len. subst Q. destruct (qualifying h l); [done|]. simpl length. lia. }
  destruct (Z.ltb_spec 0 (len Q)) as [_|?]; [|lia].
  set (m := fresh (dom h)).
  erewrite bind_returned; cycle 1.
  { erewrite bind_returned; cycle 1.
    { eapply itruediv_item_run; simpl;
        [apply lookup_insert_eq | apply metrics_dict_lookup | lia]. }
    simpl. rewrite insert_insert_eq, metrics_dict_vf.
    erewrite bind_returned; cycle 1.
    { eapply itruediv_item_run; simpl;
        [apply lookup_insert_eq | apply metrics_dict_lookup | lia]. }
    simpl. rewrite insert_insert_eq, metrics_dict_vr.
    erewrite bind_returned; cycle 1.
    { eapply itruediv_item_run; simpl;
        [apply lookup_insert_eq | apply metrics_dict_lookup | lia]. }
    simpl. rewrite insert_insert_eq, metrics_dict_rf.
    eapply itruediv_item_run; simpl;
      [apply lookup_insert_eq | apply metrics_dict_lookup | lia]. }
  simpl. rewrite insert_insert_eq, metrics_dict_rr.
  erewrite bind_returned; cycle 1.
  { apply dict_setitem_run. apply lookup_insert_eq. }
  cbn [heap stdout]. by rewrite insert_insert_eq, metrics_dict_count.
Qed.

(** ** [compute_metrics]: what it leaves alone *)

Lemma touches_only_refl m σ : touches_only m σ σ.
Proof. by split. Qed.

Lemma touches_only_trans m σ1 σ2 σ3 :
  touches_only m σ1 σ2 -> touches_only m σ2 σ3 -> touches_only m σ1 σ3.
Proof.
  intros [H1 H1'] [H2 H2']. split; [congruence|].
  intros r Hr. by rewrite H2', H1'.
Qed.

Lemma reads_only_writes_only {A} m (c : Py store A) : reads_only c -> writes_only m c.
Proof. intros Hc σ. rewrite Hc. apply touches_only_refl. Qed.

Lemma writes_only_bind {A B} m (c : Py store A) (k : A -> Py store B) :
  writes_only m c -> (∀ a, writes_only m (k a)) -> writes_only m (c ≫= k).
Proof.
  intros Hc Hk σ. specialize (Hc σ). unfold mbind, py_bind.
  destruct (c σ) as [σ' [a|e]]; simpl in *; [|done].
  eapply touches_only_trans; [done|]. apply Hk.
Qed.

Lemma reads_only_bind {A B} (c : Py store A) (k : A -> Py store B) :
  reads_only c -> (∀ a, reads_only (k a)) -> reads_only (c ≫= k).
Proof.
  intros Hc Hk σ. specialize (Hc σ). unfold mbind, py_bind.
  destruct (c σ) as [σ' [a|e]]; simpl in *; [|done].
  subst σ'. apply Hk.
Qed.

Lemma reads_only_ret {A} (a : A) : reads_only (mret a : Py store A).
Proof. done. Qed.

Lemma reads_only_raise {A} e : reads_only (raise e : Py store A).
Proof. done. Qed.

Lemma reads_only_lift_outcome {A} (o : outcome A) : reads_only (lift_outcome o : Py store A).
Proof. done. Qed.

Lemma reads_only_deref r : reads_only (deref r).
Proof. intros σ. unfold deref. by destruct (heap σ !! r). Qed.

Lemma reads_only_dict_contains r k : reads_only (dict_contains r k).
Proof. apply reads_only_bind; [apply reads_only_deref|]. intros; apply reads_only_ret. Qed.

Lemma reads_only_dict_getitem r k : reads_only (dict_getitem r k).
Proof.
  apply reads_only_bind; [apply reads_only_deref|]. intros d.
  destruct (d !! k); [apply reads_only_ret|apply reads_only_raise].
Qed.

Lemma reads_only_all_present s keys : reads_only (all_present s keys).
Proof.
  induction keys as [|k keys IH]; [apply reads_only_ret|]. simpl.
  apply reads_only_bind; [apply reads_only_dict_contains|]. intros [|]; [|apply reads_only_ret].
  apply reads_only_bind; [apply reads_only_dict_getitem|]. intros v.
  destruct (is_None v); [apply reads_only_ret|done].
Qed.

Lemma writes_only_dict_setitem m k v : writes_only m (dict_setitem m k v).
Proof.
  apply writes_only_bind; [apply reads_only_writes_only, reads_only_deref|].
  intros d σ. split; [done|]. intros r Hr. simpl. by rewrite lookup_insert_ne.
Qed.

Lemma writes_only_iadd_item m km s ks : writes_only m (iadd_item m km s ks).
Proof.
  unfold iadd_item.
  apply writes_only_bind; [apply reads_only_writes_only, reads_only_dict_getitem|]. intros a.
  apply writes_only_bind; [apply reads_only_writes_only, reads_only_dict_getitem|]. intros b.
  apply writes_only_bind; [apply reads_only_writes_only, reads_only_lift_outcome|]. intros c.
  apply writes_only_dict_setitem.
Qed.

Lemma writes_only_itruediv_item m km n : writes_only m (itruediv_item m km n).
Proof.
  unfold itruediv_item.
  apply writes_only_bind; [apply reads_only_writes_only, reads_only_dict_getitem|]. intros a.
  apply writes_only_bind; [apply reads_only_writes_only, reads_only_lift_outcome|]. intros c.
  apply writes_only_dict_setitem.
Qed.

Lemma writes_only_loop m l n : writes_only m (compute_metrics_loop m l n).
Proof.
  revert n. induction l as [|s rest IH]; intros n.
  { apply reads_only_writes_only, reads_only_ret. }
  cbn [compute_metrics_loop].
  apply writes_only_bind; [apply reads_only_writes_only, reads_only_all_present|].
  intros [|]; [|apply IH].
  repeat (apply writes_only_bind; [apply writes_only_iadd_item|]; intros _).
  apply IH.
Qed.

(** Everything [compute_metrics] does after it has created its dictionary. *)
Lemma writes_only_after_new m l :
  writes_only m
    (valid_entries ← compute_metrics_loop m l 0;
     (if 0 <? valid_entries then
        itruediv_item m "vanilla_faith_avg" valid_entries;;
        itruediv_item m "vanilla_relev_avg" valid_entries;;
        itruediv_item m "rag_faith_avg" valid_entries;;
        itruediv_item m "rag_relev_avg" valid_entries
      else mret tt);;
     dict_setitem m "count" (PyInt valid_entries);;
     mret m).
Proof.
  apply writes_only_bind; [apply writes_only_loop|]. intros n.
  apply writes_only_bind.
  { destruct (0 <? n); [|apply reads_only_writes_only, reads_only_ret].
    repeat (apply writes_only_bind; [apply writes_only_itruediv_item|]; intros _).
    apply writes_only_itruediv_item. }
  intros _. apply writes_only_bind; [apply writes_only_dict_setitem|].
  intros _. apply reads_only_writes_only, reads_only_ret.
Qed.

Lemma bind_returned_inv {Σ A B} (c : Py Σ A) (k : A -> Py Σ B) σ σ' b :
  (c ≫= k) σ = (σ', Returned b) ->
  ∃ σ1 a, c σ = (σ1, Returned a) ∧ k a σ1 = (σ', Returned b).
Proof.
  unfold mbind, py_bind. destruct (c σ) as [σ1 [a|e]]; [|done]. by exists σ1, a.
Qed.

Lemma compute_metrics_returns_new l σ σ' r :
  compute_metrics l σ = (σ', Returned r) -> r = fresh (dom (heap σ)).
Proof.
  unfold compute_metrics. intros H.
  apply bind_returned_inv in H as (σ1 & m & Hnew & H). injection Hnew as _ <-.
  apply bind_returned_inv in H as (σ2 & n & _ & H).
  apply bind_returned_inv in H as (σ3 & [] & _ & H).
  apply bind_returned_inv in H as (σ4 & [] & _ & H).
  by injection H as _ <-.
Qed.

(** C10.  [compute_metrics] leaves its input alone.  The score list is a
    list of references to records in the heap; whatever the list and the heap
    are, and whether the call returns or raises, every object other than the
    one new dictionary [compute_metrics] creates for its result is in the
    final heap exactly as it was in the initial one (so no record of the list
    is added, removed or changed, and the heap before is included in the heap
    after), nothing is printed, and the reference returned is that of the new
    dictionary, which did not exist before the call. *)
Theorem compute_metrics_leaves_input_unchanged (σ : store) (l : list loc) :
  let m := fresh (dom (heap σ)) in
  let σ' := (compute_metrics l σ).1 in
  stdout σ' = stdout σ
  ∧ (∀ r, r ≠ m -> heap σ' !! r = heap σ !! r)
  ∧ heap σ ⊆ heap σ'
  ∧ heap σ !! m = None
  ∧ match (compute_metrics l σ).2 with
    | Returned r => r = m
    | Raised _ => True
    end.
Proof.
  intros m σ'.
  assert (Hfresh : heap σ !! m = None) by apply fresh_unallocated.
  assert (Htouch : touches_only m σ σ').
  { subst σ'. unfold compute_metrics.
    set (d0 := metrics_dict _ _ _ _ _).
    erewrite bind_returned by reflexivity. fold m.
    eapply touches_only_trans; [|apply writes_only_after_new].
    split; [done|]. intros r Hr. simpl. by rewrite lookup_insert_ne. }
  destruct Htouch as [Hout Hheap].
  split_and!; [done|done| |done|].
  - apply map_subseteq_spec. intros r d Hr.
    rewrite Hheap; [done|]. intros ->. congruence.
  - destruct (compute_metrics l σ) as [σ'' [r|e]] eqn:E; [|done]. simpl.
    by apply (compute_metrics_returns_new l σ σ'').
Qed.

(** ** [compute_metrics]: the claims *)

Lemma present_spec d k : present d k = true ↔ ∃ v, d !! k = Some v ∧ v ≠ PyNone.
Proof.
  unfold present. destruct (d !! k) as [v|].
  - destruct v; simpl; split; try done; try (intros _; eexists; done).
    by intros (? & [= <-] & ?).
  - split; [done|]. by intros (? & ? & _).
Qed.

Lemma fully_populated_spec d :
  fully_populated d = true ↔ ∀ k, k ∈ score_keys -> ∃ v, d !! k = Some v ∧ v ≠ PyNone.
Proof.
  unfold fully_populated. rewrite forallb_forall. split.
  - intros H k Hk. apply present_spec, H. by apply list_elem_of_In.
  - intros H k Hk. apply present_spec, H. by apply list_elem_of_In.
Qed.

Lemma qualifying_spec h l d :
  d ∈ qualifying h l
  ↔ d ∈ records h l ∧ ∀ k, k ∈ score_keys -> ∃ v, d !! k = Some v ∧ v ≠ PyNone.
Proof.
  unfold qualifying. rewrite <- fully_populated_spec, !list_elem_of_In.
  apply List.filter_In.
Qed.

Lemma len_column k Q : k ∈ score_keys -> Forall numeric Q -> len (column k Q) = len Q.
Proof.
  intros Hk HQ. unfold len. f_equal. induction HQ as [|d Q Hd _ IH]; [done|].
  unfold numeric in Hd. rewrite Forall_forall in Hd.
  destruct (Hd k Hk) as [x Hx]. unfold column in *. cbn [omap list_omap].
  rewrite Hx. simpl. by rewrite IH.
Qed.

(** C1.  Metrics aggregation over a score list whose references all denote
    records, whose fully populated records hold numbers in their four
    fields, and whose length is one a Python list can have.  The records that
    qualify are exactly those of the list in which the four fields
    [vanilla_faith], [vanilla_relev], [rag_faith], [rag_relev] are present and
    not [None].  The call returns a new dictionary whose [count] is the
    number of qualifying records and, when there is at least one, whose four
    averages are each the arithmetic mean of that field over the qualifying
    records and no others: their float sum in list order from [0.0], divided
    by their number.  The heap is otherwise as before. *)
Theorem compute_metrics_mean (h : gmap loc dict) (out : list string) (l : list loc) :
  allocated h l ->
  Forall numeric (qualifying h l) ->
  len l <= PY_SSIZE_T_MAX ->
  let Q := qualifying h l in
  ∃ (m : loc) (metrics : dict),
    compute_metrics l (Store h out) = (Store (<[m := metrics]> h) out, Returned m)
    ∧ h !! m = None
    ∧ (∀ d, d ∈ Q ↔ d ∈ records h l
                     ∧ ∀ k, k ∈ score_keys -> ∃ v, d !! k = Some v ∧ v ≠ PyNone)
    ∧ metrics !! "count" = Some (PyInt (len Q))
    ∧ (Q ≠ [] ->
       metrics !! "vanilla_faith_avg" = Some (PyFloat (arithmetic_mean (column "vanilla_faith" Q)))
       ∧ metrics !! "vanilla_relev_avg" = Some (PyFloat (arithmetic_mean (column "vanilla_relev" Q)))
       ∧ metrics !! "rag_faith_avg" = Some (PyFloat (arithmetic_mean (column "rag_faith" Q)))
       ∧ metrics !! "rag_relev_avg" = Some (PyFloat (arithmetic_mean (column "rag_relev" Q)))).
Proof.
  intros Hall Hnum Hlen Q. exists (fresh (dom h)).
  destruct (decide (Q = [])) as [HQ|HQ].
  - eexists. split; [by apply compute_metrics_zero|].
    split; [apply fresh_unallocated|]. split; [apply qualifying_spec|].
    split; [|done]. subst Q. rewrite HQ. apply metrics_dict_lookup.
  - eexists. split; [by apply compute_metrics_some|].
    split; [apply fresh_unallocated|]. split; [apply qualifying_spec|].
    split; [apply metrics_dict_lookup|]. intros _. fold Q.
    unfold arithmetic_mean.
    rewrite !len_column by (done || (unfold score_keys; rewrite !elem_of_cons; tauto)).
    split_and!; apply metrics_dict_lookup.
Qed.

(** C3.  When no record of the list is fully populated (the empty list
    included), [compute_metrics] returns, without raising, a new dictionary
    with the four averages at [0.0] and [count] at [0]: the division is not
    reached. *)
Theorem compute_metrics_none_qualify (h : gmap loc dict) (out : list string) (l : list loc) :
  allocated h l ->
  qualifying h l = [] ->
  ∃ (m : loc) (metrics : dict),
    compute_metrics l (Store h out) = (Store (<[m := metrics]> h) out, Returned m)
    ∧ h !! m = None
    ∧ metrics !! "vanilla_faith_avg" = Some (PyFloat F64.zero)
    ∧ metrics !! "vanilla_relev_avg" = Some (PyFloat F64.zero)
    ∧ metrics !! "rag_faith_avg" = Some (PyFloat F64.zero)
    ∧ metrics !! "rag_relev_avg" = Some (PyFloat F64.zero)
    ∧ metrics !! "count" = Some (PyInt 0).
Proof.
  intros Hall HQ. exists (fresh (dom h)). eexists.
  split; [by apply compute_metrics_zero|].
  split; [apply fresh_unallocated|]. apply metrics_dict_lookup.
Qed.

Lemma compute_metrics_mean_witness :
  allocated example_heap example_scores
  ∧ Forall numeric (qualifying example_heap example_scores)
  ∧ qualifying example_heap example_scores = [example_full_1; example_full_2]
  ∧ ∃ (m : loc) (metrics : dict),
      compute_metrics example_scores (Store example_heap [])
      = (Store (<[m := metrics]> example_heap) [], Returned m)
      ∧ metrics !! "count" = Some (PyInt 2)
      ∧ metrics !! "vanilla_faith_avg" = Some (PyFloat (F64.of_decimal 3 1))
      ∧ metrics !! "rag_relev_avg" = Some (PyFloat (F64.of_decimal 85 2)).
Proof.
  assert (Hall : allocated example_heap example_scores).
  { unfold allocated. apply (bool_decide_unpack _). vm_compute. exact I. }
  assert (HQ : qualifying example_heap example_scores = [example_full_1; example_full_2]).
  { apply (bool_decide_unpack _). vm_compute. exact I. }
  assert (Hnum : Forall numeric (qualifying example_heap example_scores)).
  { unfold numeric. apply (bool_decide_unpack _). vm_compute. exact I. }
  split; [exact Hall|]. split; [exact Hnum|]. split; [exact HQ|].
  destruct (compute_metrics_mean example_heap [] example_scores Hall Hnum)
    as (m & metrics & Hrun & _ & _ & Hcount & Havg).
  { apply (bool_decide_unpack _). vm_compute. exact I. }
  exists m, metrics. rewrite HQ in Hcount, Havg.
  destruct Havg as (Hvf & _ & _ & Hrr); [discriminate|].
  split; [exact Hrun|]. split; [exact Hcount|]. split.
  - rewrite Hvf. apply (bool_decide_unpack _). vm_compute. exact I.
  - rewrite Hrr. apply (bool_decide_unpack _). vm_compute. exact I.
Defined.

Lemma compute_metrics_none_qualify_witness :
  allocated example_heap example_unscored
  ∧ qualifying example_heap example_unscored = []
  ∧ ∃ (m : loc) (metrics : dict),
      compute_metrics example_unscored (Store example_heap [])
      = (Store (<[m := metrics]> example_heap) [], Returned m)
      ∧ metrics !! "vanilla_faith_avg" = Some (PyFloat F64.zero)
      ∧ metrics !! "count" = Some (PyInt 0).
Proof.
  assert (Hall : allocated example_heap example_unscored).
  { unfold allocated. apply (bool_decide_unpack _). vm_compute. exact I. }
  assert (HQ : qualifying example_heap example_unscored = []).
  { apply (bool_decide_unpack _). vm_compute. exact I. }
  split; [exact Hall|]. split; [exact HQ|].
  destruct (compute_metrics_none_qualify example_heap [] example_unscored Hall HQ)
    as (m & metrics & Hrun & _ & H1 & _ & _ & _ & H5).
  exists m, metrics. split; [exact Hrun|]. split; [exact H1|exact H5].
Defined.

(** ** [score_question]: the claims *)

(** C4.  For a 1-based [index] whose 0-based form is inside the list,
    [score_question] returns normally, prints nothing, and replaces the
    record [d] that the list holds at [index - 1] by a record [d'] in which
    the four fields [vanilla_faith], [vanilla_relev], [rag_faith] and
    [rag_relev] hold the four values given and every other key holds what it
    held in [d]; every other object of the heap, so every other record of the
    list, is as before.  (A position of the list that holds the same record
    sees the same update: it is one object.) *)
Theorem score_question_overwrites_four_fields
    (σ : store) (l : list loc) (index : Z) (vf vr rf rr : pyval) (r : loc) (d : dict) :
  0 <= index - 1 < len l ->
  l !! Z.to_nat (index - 1) = Some r ->
  heap σ !! r = Some d ->
  ∃ d' : dict,
    score_question l index vf vr rf rr σ
    = (Store (<[r := d']> (heap σ)) (stdout σ), Returned tt)
    ∧ d' !! "vanilla_faith" = Some vf
    ∧ d' !! "vanilla_relev" = Some vr
    ∧ d' !! "rag_faith" = Some rf
    ∧ d' !! "rag_relev" = Some rr
    ∧ (∀ k, k ∉ score_keys -> d' !! k = d !! k)
    ∧ (∀ r', r' ≠ r -> <[r := d']> (heap σ) !! r' = heap σ !! r').
Proof.
  intros Hidx Hr Hd. exists (scored vf vr rf rr d).
  split; [by apply score_question_in_range|].
  unfold scored. split_and!.
  - do 3 (rewrite lookup_insert_ne by done). apply lookup_insert_eq.
  - do 2 (rewrite lookup_insert_ne by done). apply lookup_insert_eq.
  - rewrite lookup_insert_ne by done. apply lookup_insert_eq.
  - apply lookup_insert_eq.
  - intros k Hk. unfold score_keys in Hk.
    rewrite !not_elem_of_cons in Hk. destruct Hk as (? & ? & ? & ? & _).
    by do 4 (rewrite lookup_insert_ne by done).
  - intros r' Hr'. by rewrite lookup_insert_ne.
Qed.

Lemma score_question_overwrites_four_fields_witness :
  let σ := Store example_heap [] in
  ∃ d' : dict,
    score_question example_scores 1 (PyFloat F64.zero) (PyFloat F64.one) (PyInt 1) PyNone σ
    = (Store (<[1%positive := d']> example_heap) [], Returned tt)
    ∧ d' !! "rag_relev" = Some PyNone
    ∧ d' !! "question" = example_full_1 !! "question".
Proof.
  intros σ.
  destruct (score_question_overwrites_four_fields σ example_scores 1
              (PyFloat F64.zero) (PyFloat F64.one) (PyInt 1) PyNone 1%positive example_full_1)
    as (d' & Hrun & _ & _ & _ & Hrr & Hother & _).
  - unfold len, example_scores. simpl. lia.
  - reflexivity.
  - reflexivity.
  - exists d'. split_and!; [done|done|]. apply Hother. unfold score_keys.
    rewrite !not_elem_of_cons. split_and!; try done. apply not_elem_of_nil.
Defined.

(** C5.  For a 1-based [index] whose 0-based form is outside the list (so
    for index 0, for a negative index and for an index greater than the
    length), [score_question] returns normally, leaves the whole heap as it
    was, and prints the one line [Error: Index <index> out of range.]. *)
Theorem score_question_out_of_range
    (σ : store) (l : list loc) (index : Z) (vf vr rf rr : pyval) :
  ¬ (0 <= index - 1 < len l) ->
  score_question l index vf vr rf rr σ
  = (Store (heap σ) (stdout σ ++ ["Error: Index " +:+ pretty index +:+ " out of range."]),
     Returned tt).
Proof.
  intros Hidx. unfold score_question.
  destruct (Z.leb_spec 0 (index - 1)) as [H0|H0];
    destruct (Z.ltb_spec (index - 1) (len l)) as [H1|H1];
    simpl; [exfalso; apply Hidx; split; assumption|reflexivity..].
Qed.

Lemma score_question_out_of_range_witness :
  let σ := Store example_heap [] in
  score_question example_scores 0 (PyFloat F64.zero) (PyFloat F64.one) (PyInt 1) PyNone σ
  = (Store example_heap ["Error: Index 0 out of range."], Returned tt)
  ∧ score_question example_scores 5 (PyFloat F64.zero) (PyFloat F64.one) (PyInt 1) PyNone σ
    = (Store example_heap ["Error: Index 5 out of range."], Returned tt).
Proof.
  intros σ. split.
  - apply (score_question_out_of_range σ example_scores 0). vm_compute. intros [H _]. by apply H.
  - apply (score_question_out_of_range σ example_scores 5). vm_compute. intros [_ H]. done.
Defined.

(** ** [parse_score]: the pattern *)

Arguments decimal_value : simpl never.
Arguments is_digit : simpl never.

Lemma point_not_digit : is_digit point = false.
Proof. reflexivity. Qed.

Lemma all_digits_app s t : all_digits (s ++ t) = all_digits s && all_digits t.
Proof.
  induction s as [|c s IH]; [done|]. simpl. by rewrite IH, andb_assoc.
Qed.

Lemma digits_prefix_spec s ds rest :
  digits_prefix s = (ds, rest) ->
  s = ds ++ rest ∧ all_digits ds = true ∧ starts_nondigit rest.
Proof.
  revert ds rest. induction s as [|c s IH]; intros ds rest; simpl.
  { by intros [= <- <-]. }
  destruct (is_digit c) eqn:Hc.
  - destruct (digits_prefix s) as [ds' rest'] eqn:E. intros [= <- <-].
    destruct (IH ds' rest' eq_refl) as (-> & Hds & Hrest).
    split_and!; [done| |done]. simpl. by rewrite Hc, Hds.
  - intros [= <- <-]. by split_and!.
Qed.

Lemma digits_prefix_app ds rest :
  all_digits ds = true -> starts_nondigit rest -> digits_prefix (ds ++ rest) = (ds, rest).
Proof.
  intros Hds Hrest. induction ds as [|c ds IH].
  - destruct rest as [|c rest]; [done|]. simpl in *. by rewrite Hrest.
  - simpl in Hds. apply andb_prop in Hds as [Hc Hds].
    simpl. by rewrite Hc, (IH Hds).
Qed.

(** A run of digits at the start of a text is no longer than the maximal
    one. *)
Lemma digit_run_le (a x b y : text) :
  all_digits a = true -> starts_nondigit y -> a ++ x = b ++ y ->
  (length a <= length b)%nat.
Proof.
  revert b. induction a as [|c a IH]; intros b Ha Hy E; simpl; [lia|].
  simpl in Ha. apply andb_prop in Ha as [Hc Ha].
  destruct b as [|c' b].
  - simpl in E. subst y. simpl in Hy. congruence.
  - simpl in E. injection E as <- E. simpl. specialize (IH b Ha Hy E). lia.
Qed.

(** A text splits in one way only into a run of digits and something that
    does not start with a digit. *)
Lemma digit_run_unique (a x b y : text) :
  all_digits a = true -> all_digits b = true ->
  starts_nondigit x -> starts_nondigit y ->
  a ++ x = b ++ y -> a = b ∧ x = y.
Proof.
  revert b. induction a as [|c a IH]; intros b Ha Hb Hx Hy E.
  - destruct b as [|c' b]; [done|].
    simpl in E. subst x. simpl in Hx, Hb.
    apply andb_prop in Hb as [Hc' _]. congruence.
  - simpl in Ha. apply andb_prop in Ha as [Hc Ha]. destruct b as [|c' b].
    + simpl in E. subst y. simpl in Hy. congruence.
    + simpl in E. injection E as <- E. simpl in Hb.
      apply andb_prop in Hb as [_ Hb].
      destruct (IH b Ha Hb Hx Hy E) as [-> ->]. done.
Qed.

Lemma match_fraction_some s fs :
  match_fraction s = Some fs ->
  ∃ rest, s = point :: fs ++ rest ∧ unsigned_integer fs ∧ starts_nondigit rest.
Proof.
  destruct s as [|c s]; [done|]. simpl.
  destruct (N.eqb_spec c point) as [->|]; [|done].
  destruct (digits_prefix s) as [ds rest] eqn:E.
  apply digits_prefix_spec in E as (-> & Hds & Hrest).
  destruct ds as [|d ds]; [done|]. intros [= <-].
  exists rest. by split_and!.
Qed.

Lemma match_fraction_none s fs rest :
  match_fraction s = None -> unsigned_integer fs -> s ≠ point :: fs ++ rest.
Proof.
  intros Hs [Hne Hfs] ->. simpl in Hs.
  destruct (digits_prefix (fs ++ rest)) as [ds rest'] eqn:E.
  apply digits_prefix_spec in E as (E & Hds & Hrest').
  destruct ds as [|d ds]; [|done].
  simpl in E. subst rest'.
  destruct fs as [|c fs]; [done|]. simpl in Hrest', Hfs.
  apply andb_prop in Hfs as [? _]. congruence.
Qed.

Lemma literal_starts_with_digit m :
  number_literal m -> ∃ c t, m = c :: t ∧ is_digit c = true.
Proof.
  intros [v Hv]. destruct Hv as [ds [Hne Hds]|ds fs [Hne Hds] _];
    (destruct ds as [|c ds]; [done|]); simpl in Hds; apply andb_prop in Hds as [Hc _].
  - by exists c, ds.
  - simpl. by eexists _, _.
Qed.

Lemma float_of_str_integer ds :
  unsigned_integer ds -> float_of_str ds = Returned (F64.of_decimal (digits_value 0 ds) 0).
Proof.
  intros [Hne Hds]. unfold float_of_str.
  rewrite <- (app_nil_r ds) at 1. rewrite (digits_prefix_app ds [] Hds I).
  by destruct (decide (ds = [])).
Qed.

Lemma float_of_str_decimal ds fs :
  unsigned_integer ds -> unsigned_integer fs ->
  float_of_str (ds ++ point :: fs)
  = Returned (F64.of_decimal (digits_value 0 (ds ++ fs)) (length fs)).
Proof.
  intros [Hne Hds] [_ Hfs]. unfold float_of_str.
  rewrite (digits_prefix_app ds (point :: fs) Hds) by apply point_not_digit.
  rewrite <- (app_nil_r fs) at 1. rewrite (digits_prefix_app fs [] Hfs I).
  destruct (decide _) as [_|Hno]; [done|]. exfalso. apply Hno. split_and!; [done|done|].
  by destruct ds.
Qed.

Lemma literal_value_float_of_str m v : literal_value m v -> float_of_str m = Returned v.
Proof. intros [ds H|ds fs H1 H2]; [by apply float_of_str_integer|by apply float_of_str_decimal]. Qed.

Lemma match_number_some s m :
  match_number s = Some m ->
  ∃ post v, s = m ++ post ∧ literal_value m v
    ∧ ∀ m' post', s = m' ++ post' -> number_literal m' ->
                  (length m' <= length m)%nat.
Proof.
  unfold match_number. destruct (digits_prefix s) as [ds rest] eqn:E.
  apply digits_prefix_spec in E as (-> & Hds & Hrest).
  destruct ds as [|c ds]; [done|]. set (ds' := c :: ds) in *.
  assert (Hint : unsigned_integer ds') by done.
  destruct (match_fraction rest) as [fs|] eqn:Hfrac; intros [= <-].
  - apply match_fraction_some in Hfrac as (rest2 & -> & Hfs & Hrest2).
    change (c :: ds ++ point :: fs) with (ds' ++ point :: fs).
    exists rest2. eexists. split; [exact (app_assoc ds' (point :: fs) rest2)|].
    split; [by apply value_decimal|].
    intros m' post' E [v' Hm']. symmetry in E.
    destruct Hm' as [a [_ Ha]|a b [_ Ha] [_ Hb]].
    + pose proof (digit_run_le a post' ds' _ Ha Hrest E). rewrite length_app. lia.
    + rewrite <- !app_assoc in E.
      destruct (digit_run_unique a ((point :: b) ++ post') ds' (point :: fs ++ rest2)
                  Ha Hds point_not_digit Hrest E) as [-> E'].
      simpl in E'. injection E' as E'.
      pose proof (digit_run_le b post' fs rest2 Hb Hrest2 E').
      rewrite !length_app. simpl. lia.
  - change (c :: ds) with ds'.
    exists rest. eexists. split; [done|]. split; [by apply value_integer|].
    intros m' post' E [v' Hm']. symmetry in E.
    destruct Hm' as [a [_ Ha]|a b [_ Ha] Hb].
    + apply (digit_run_le a post' ds' _ Ha Hrest E).
    + rewrite <- !app_assoc in E.
      destruct (digit_run_unique a ((point :: b) ++ post') ds' rest
                  Ha Hds point_not_digit Hrest E) as [-> E'].
      by destruct (match_fraction_none rest b post' Hfrac Hb).
Qed.

Lemma match_number_none s m' post' :
  match_number s = None -> s = m' ++ post' -> ¬ number_literal m'.
Proof.
  unfold match_number. destruct (digits_prefix s) as [ds rest] eqn:E.
  apply digits_prefix_spec in E as (-> & Hds & Hrest).
  destruct ds as [|c ds]; [|by destruct (match_fraction rest)].
  intros _ E Hm'. apply literal_starts_with_digit in Hm' as (c & t & -> & Hc).
  simpl in E. subst rest. simpl in Hrest. congruence.
Qed.

Lemma occurs_at_0 s m : occurs_at s 0 m ↔ ∃ post, s = m ++ post.
Proof.
  split.
  - intros (pre & post & -> & Hpre). destruct pre; [|done]. by exists post.
  - intros [post ->]. by exists [], post.
Qed.

Lemma occurs_at_S c s j m : occurs_at (c :: s) (S j) m ↔ occurs_at s j m.
Proof.
  split.
  - intros (pre & post & E & Hpre). destruct pre as [|c' pre]; [done|].
    simpl in E. injection E as <- ->. injection Hpre as Hpre.
    by exists pre, post.
  - intros (pre & post & -> & Hpre). exists (c :: pre), post.
    split; [done|]. simpl. by rewrite Hpre.
Qed.

Lemma search_from_some s k i m :
  search_from k s = Some (ReMatch i m) ->
  ∃ j v, i = (k + j)%nat ∧ first_number s j m ∧ literal_value m v.
Proof.
  revert k. induction s as [|c s IH]; intros k; [done|].
  cbn [search_from]. destruct (match_number (c :: s)) as [matched|] eqn:Hm.
  - intros [= <- <-]. apply match_number_some in Hm as (post & v & E & Hv & Hmax).
    exists 0%nat, v. split; [lia|]. split; [|done]. split_and!.
    + apply occurs_at_0. by exists post.
    + by exists v.
    + intros; lia.
    + intros m' Hocc. apply occurs_at_0 in Hocc as [post' E']. by apply (Hmax m' post').
  - intros Hs. apply IH in Hs as (j & v & -> & (Hocc & Hlit & Hleft & Hlong) & Hv).
    exists (S j), v. split; [lia|]. split; [|done]. split_and!.
    + by apply occurs_at_S.
    + done.
    + intros [|j0] m' Hocc' Hlit'.
      * apply occurs_at_0 in Hocc' as [post' E'].
        by destruct (match_number_none _ m' post' Hm E').
      * apply occurs_at_S in Hocc'. specialize (Hleft j0 m' Hocc' Hlit'). lia.
    + intros m' Hocc'. apply occurs_at_S in Hocc'. by apply Hlong.
Qed.


(** ** [parse_score]: the clamp *)

Lemma ltb_finite_cases m e m' e' :
  let x := S754_finite false m e in
  let y := S754_finite false m' e' in
  (F64.ltb x y = true ∧ F64.ltb y x = false)
  ∨ (F64.ltb x y = false ∧ F64.ltb y x = true)
  ∨ (x = y ∧ F64.ltb x y = false ∧ F64.ltb y x = false).
Proof.
  intros x y. unfold F64.ltb, SFltb, x, y. simpl.
  rewrite (Z.compare_antisym e e'). fold (Pos.compare m' m) (Pos.compare m m').
  rewrite (Pos.compare_antisym m m').
  destruct (Z.compare_spec e e') as [->| |]; simpl; [|by left|by right; left].
  destruct (Pos.compare_spec m m') as [->| |]; simpl; [|by left|by right; left].
  by right; right.
Qed.

Lemma ten_finite : F64.ten = S754_finite false 5629499534213120 (-49).
Proof. reflexivity. Qed.

(** On a float that is neither negative nor a NaN, Python's
    [max(0, min(10, val)) / 10.0] is the clamp to [0, 10] divided by ten. *)
Lemma clamp_python v :
  signed false v ->
  (lo ← py_min (PyInt 10) (PyFloat v); val ← py_max (PyInt 0) lo; truediv_float val F64.ten)
  = Returned (F64.div (clamp F64.zero F64.ten v) F64.ten).
Proof.
  intros Hv. destruct v as [[|]|[|]| |[|] m e]; try done; try reflexivity.
  unfold py_min, py_max, num_ltb.
  change (as_float (PyInt 10)) with (Some F64.ten).
  change (as_float (PyInt 0)) with (Some F64.zero).
  cbn [as_float]. unfold clamp.
  change (F64.ltb (S754_finite false m e) F64.zero) with false. cbv iota.
  rewrite ten_finite.
  destruct (ltb_finite_cases m e 5629499534213120 (-49)) as [[-> ->]|[[-> ->]|[E [-> ->]]]].
  - reflexivity.
  - reflexivity.
  - rewrite E. reflexivity.
Qed.

Lemma literal_value_signed m v : literal_value m v -> signed false v.
Proof. intros [ds _|ds fs _ _]; apply of_decimal_signed. Qed.

Lemma outcome_bind_returned {A B} (a : A) (k : A -> outcome B) : (Returned a ≫= k) = k a.
Proof. reflexivity. Qed.




(** ** The functions that call the collaborators *)

Lemma external_run {X A} (c : call) (method : Py X A) (σ : session X) w o :
  method (world σ) = (w, o) ->
  external c method σ = (Session w (calls σ ++ [c]) (local σ), o).
Proof. intros H. unfold external. by rewrite H. Qed.

Lemma in_world_run {X A} (m : Py X A) (σ : session X) w o :
  m (world σ) = (w, o) ->
  in_world m σ = (Session w (calls σ) (local σ), o).
Proof. intros H. unfold in_world. by rewrite H. Qed.

(** One statement of a body, run from a session whose world is known. *)
Ltac step H :=
  first
    [ erewrite bind_returned by (first [apply in_world_run | apply external_run]; exact H)
    | erewrite bind_raised by (first [apply in_world_run | apply external_run]; exact H) ];
  cbn [world calls local].

Lemma relevancy_answered_body {X} (llm : string -> Py X pyval) question answer context
    (σ : session X) q a r1 w1 :
  relevancy_answered llm question answer (world σ) q a r1 w1 ->
  evaluate_body llm question answer context σ
  = (has_context ← in_world (truth_arg context);
     faith_score ←
       (if has_context : bool then
          c ← in_world (format_arg context);
          a ← in_world (format_arg answer);
          faith_resp ← external (LlmInvoke (faithfulness_prompt c a))
                                (llm (faithfulness_prompt c a));
          mret (parse_score faith_resp)
        else mret F64.zero);
     mret (faith_score, parse_score r1))
      (Session w1 (calls σ ++ [LlmInvoke (relevancy_prompt q a)]) (local σ)).
Proof.
  intros (wq & wa & Hq & Ha & H1). unfold evaluate_body.
  step Hq. step Ha. step H1. reflexivity.
Qed.

Lemma evaluate_body_no_context {X} (llm : string -> Py X pyval) question answer context
    (σ : session X) q a r1 w1 wt :
  relevancy_answered llm question answer (world σ) q a r1 w1 ->
  truth_arg context w1 = (wt, Returned false) ->
  evaluate_body llm question answer context σ
  = (Session wt (calls σ ++ [LlmInvoke (relevancy_prompt q a)]) (local σ),
     Returned (F64.zero, parse_score r1)).
Proof.
  intros Hrel Ht. rewrite (relevancy_answered_body _ _ _ _ _ _ _ _ _ Hrel).
  step Ht. reflexivity.
Qed.

Lemma evaluate_body_context {X} (llm : string -> Py X pyval) question answer context
    (σ : session X) q a r1 w1 wt wc c wa a' w2 o2 :
  relevancy_answered llm question answer (world σ) q a r1 w1 ->
  truth_arg context w1 = (wt, Returned true) ->
  format_arg context wt = (wc, Returned c) ->
  format_arg answer wc = (wa, Returned a') ->
  llm (faithfulness_prompt c a') wa = (w2, o2) ->
  evaluate_body llm question answer context σ
  = (Session w2 (calls σ ++ [LlmInvoke (relevancy_prompt q a);
                             LlmInvoke (faithfulness_prompt c a')]) (local σ),
     match o2 with
     | Returned r2 => Returned (parse_score r2, parse_score r1)
     | Raised e => Raised e
     end).
Proof.
  intros Hrel Ht Hc Ha H2. rewrite (relevancy_answered_body _ _ _ _ _ _ _ _ _ Hrel).
  step Ht.
  destruct o2 as [r2|e].
  - erewrite bind_returned; [reflexivity|].
    step Hc. step Ha. step H2. by rewrite <- app_assoc.
  - erewrite bind_raised; [reflexivity|].
    step Hc. step Ha. step H2. by rewrite <- app_assoc.
Qed.

Lemma judge_fails_body {X} (llm : string -> Py X pyval) question answer context
    (σ : session X) e w' made :
  judge_fails llm question answer context (world σ) e w' made ->
  evaluate_body llm question answer context σ
  = (Session w' (calls σ ++ made) (local σ), Raised e).
Proof.
  intros [w1 Hq|wq q w1 Hq Ha|wq q wa a w1 Hq Ha H1|q a r1 w1 w2 Hrel Ht
          |q a r1 w1 wt w2 Hrel Ht Hc|q a r1 w1 wt wc c w2 Hrel Ht Hc Ha
          |q a r1 w1 wt wc c wa a' w2 Hrel Ht Hc Ha H2].
  - unfold evaluate_body. step Hq. by rewrite app_nil_r.
  - unfold evaluate_body. step Hq. step Ha. by rewrite app_nil_r.
  - unfold evaluate_body. step Hq. step Ha. step H1. reflexivity.
  - rewrite (relevancy_answered_body _ _ _ _ _ _ _ _ _ Hrel). step Ht. reflexivity.
  - rewrite (relevancy_answered_body _ _ _ _ _ _ _ _ _ Hrel). step Ht.
    erewrite bind_raised; [reflexivity|]. step Hc. reflexivity.
  - rewrite (relevancy_answered_body _ _ _ _ _ _ _ _ _ Hrel). step Ht.
    erewrite bind_raised; [reflexivity|]. step Hc. step Ha. reflexivity.
  - by rewrite (evaluate_body_context llm question answer context σ q a r1 w1 wt wc c wa a' w2
                  (Raised e) Hrel Ht Hc Ha H2).
Qed.


(** An exception that is not an [Exception] passes through the handler. *)
Lemma evaluate_propagates {X} (llm : string -> Py X pyval) question answer context
    (σ : session X) e w' made :
  judge_fails llm question answer context (world σ) e w' made ->
  is_Exception e = false ->
  evaluate_answer_with_llm llm question answer context σ
  = (Session w' (calls σ ++ made) (local σ), Raised e).
Proof.
  intros Hfail He. unfold evaluate_answer_with_llm, try_except_Exception.
  by rewrite (judge_fails_body _ _ _ _ _ _ _ _ Hfail), He.
Qed.

Lemma relevancy_answered_str {X} (llm : string -> Py X pyval) (q a : string) w r1 w1 :
  llm (relevancy_prompt q a) w = (w1, Returned r1) ->
  relevancy_answered llm (ArgStr q) (ArgStr a) w q a r1 w1.
Proof. intros H. by exists w, w. Qed.

(** C6.  LLM-judge evaluation when the formatting of the prompts succeeds
    and the model answers.  The relevancy prompt, made of the question and
    the answer, is sent first.  With no context ([None]), or an empty one,
    that is the only invocation, and the result is the pair of [0.0] and the
    parsed relevancy answer.  With a context that is a string and not empty
    the faithfulness prompt, made of the context and the answer, is sent in
    a second invocation, and when it answers the result is the pair (parsed
    faithfulness answer, parsed relevancy answer).  A context that is an
    object of another class goes one way or the other as its truth value
    says.  Nothing is printed and the interpreter's store is untouched.
    For a question and an answer that are strings the two formatting
    hypotheses hold with [q] the question, [a] and [a'] the answer, and the
    world as it was. *)
Theorem evaluate_answer_with_llm_scores {X} (llm : string -> Py X pyval)
    (question answer context : pyarg X) (σ : session X)
    (wq wa w1 : X) (q a : string) (r1 : pyval) :
  format_arg question (world σ) = (wq, Returned q) ->
  format_arg answer wq = (wa, Returned a) ->
  llm (relevancy_prompt q a) wa = (w1, Returned r1) ->
  match context with
  | ArgNone | ArgStr "" =>
      evaluate_answer_with_llm llm question answer context σ
      = (Session w1 (calls σ ++ [LlmInvoke (relevancy_prompt q a)]) (local σ),
         Returned (F64.zero, parse_score r1))
  | ArgStr ctx =>
      ∀ (wa' : X) (a' : string) (w2 : X) (r2 : pyval),
        format_arg answer w1 = (wa', Returned a') ->
        llm (faithfulness_prompt ctx a') wa' = (w2, Returned r2) ->
        evaluate_answer_with_llm llm question answer context σ
        = (Session w2 (calls σ ++ [LlmInvoke (relevancy_prompt q a);
                                   LlmInvoke (faithfulness_prompt ctx a')]) (local σ),
           Returned (parse_score r2, parse_score r1))
  | ArgObj fmt truth =>
      ∀ (wt : X) (has_context : bool),
        truth w1 = (wt, Returned has_context) ->
        if has_context then
          ∀ (wc : X) (c : string) (wa' : X) (a' : string) (w2 : X) (r2 : pyval),
            fmt wt = (wc, Returned c) ->
            format_arg answer wc = (wa', Returned a') ->
            llm (faithfulness_prompt c a') wa' = (w2, Returned r2) ->
            evaluate_answer_with_llm llm question answer context σ
            = (Session w2 (calls σ ++ [LlmInvoke (relevancy_prompt q a);
                                       LlmInvoke (faithfulness_prompt c a')]) (local σ),
               Returned (parse_score r2, parse_score r1))
        else
          evaluate_answer_with_llm llm question answer context σ
          = (Session wt (calls σ ++ [LlmInvoke (relevancy_prompt q a)]) (local σ),
             Returned (F64.zero, parse_score r1))
  end.
Proof.
  intros Hq Ha H1.
  assert (Hrel : relevancy_answered llm question answer (world σ) q a r1 w1)
    by (by exists wq, wa).
  unfold evaluate_answer_with_llm, try_except_Exception.
  destruct context as [|[|c0 ctx]|fmt truth].
  - by rewrite (evaluate_body_no_context llm question answer ArgNone σ q a r1 w1 w1 Hrel).
  - by rewrite (evaluate_body_no_context llm question answer (ArgStr "") σ q a r1 w1 w1 Hrel).
  - intros wa' a' w2 r2 Ha' H2.
    by rewrite (evaluate_body_context llm question answer (ArgStr (String c0 ctx)) σ
                  q a r1 w1 w1 w1 (String c0 ctx) wa' a' w2 (Returned r2) Hrel).
  - intros wt [|] Ht.
    + intros wc c wa' a' w2 r2 Hc Ha' H2.
      by rewrite (evaluate_body_context llm question answer (ArgObj fmt truth) σ
                    q a r1 w1 wt wc c wa' a' w2 (Returned r2) Hrel).
    + by rewrite (evaluate_body_no_context llm question answer (ArgObj fmt truth) σ
                    q a r1 w1 wt Hrel).
Qed.

Lemma evaluate_answer_with_llm_scores_witness :
  evaluate_answer_with_llm example_llm (ArgStr "What is RAG?") (ArgStr "A retrieval technique.")
    ArgNone example_session
  = (Session 1%nat [LlmInvoke (relevancy_prompt "What is RAG?" "A retrieval technique.")]
       (Store ∅ []),
     Returned (F64.zero, F64.of_decimal 8 1))
  ∧ evaluate_answer_with_llm example_llm (ArgStr "What is RAG?")
      (ArgStr "A retrieval technique.") (ArgStr "RAG retrieves documents.") example_session
    = (Session 2%nat
         [LlmInvoke (relevancy_prompt "What is RAG?" "A retrieval technique.");
          LlmInvoke (faithfulness_prompt "RAG retrieves documents." "A retrieval technique.")]
         (Store ∅ []),
       Returned (F64.of_decimal 65 2, F64.of_decimal 8 1)).
Proof.
  split.
  - apply (evaluate_answer_with_llm_scores example_llm (ArgStr "What is RAG?")
             (ArgStr "A retrieval technique.") ArgNone example_session
             0%nat 0%nat 1%nat "What is RAG?" "A retrieval technique."
             (PyStr (ustr "Score: 8"))); reflexivity.
  - apply (evaluate_answer_with_llm_scores example_llm (ArgStr "What is RAG?")
             (ArgStr "A retrieval technique.") (ArgStr "RAG retrieves documents.")
             example_session 0%nat 0%nat 1%nat "What is RAG?" "A retrieval technique."
             (PyStr (ustr "Score: 8")) eq_refl eq_refl eq_refl
             1%nat "A retrieval technique." 2%nat
             (PyStr (ustr "I would rate this 6.5 out of 10"))); reflexivity.
Defined.




(** ** [ask_rag] *)

Lemma str_app_cons c s t : String c s +:+ t = String c (s +:+ t).
Proof. reflexivity. Qed.

Lemma str_app_nil_l s : "" +:+ s = s.
Proof. reflexivity. Qed.

Lemma str_app_nil_r s : s +:+ "" = s.
Proof. induction s as [|c s IH]; [done|]. by rewrite str_app_cons, IH. Qed.

Lemma str_app_assoc s t u : (s +:+ t) +:+ u = s +:+ t +:+ u.
Proof. induction s as [|c s IH]; [done|]. by rewrite !str_app_cons, IH. Qed.

Lemma str_length_app s t : String.length (s +:+ t) = (String.length s + String.length t)%nat.
Proof. induction s as [|c s IH]; [done|]. rewrite str_app_cons. simpl. by rewrite IH. Qed.

Lemma length_str_take n s : String.length (str_take n s) = Nat.min n (String.length s).
Proof.
  revert s. induction n as [|n IH]; intros [|c s]; simpl; try done. by rewrite IH.
Qed.

Lemma str_take_drop n s : str_take n s +:+ str_drop n s = s.
Proof.
  revert s. induction n as [|n IH]; intros [|c s]; simpl; try done.
  by rewrite str_app_cons, IH.
Qed.

Lemma ask_rag_retrieved {X}
    (retriever : string -> Py X (list document)) (question : string)
    (qa_prompt : string -> string -> Py X string) (llm : string -> Py X pyval)
    (max_context_chars : Z) (σ : session X) w1 docs :
  retriever question (world σ) = (w1, Returned docs) ->
  let context := slice_to (String.concat double_newline (map page_content docs))
                          max_context_chars in
  ∃ rest : list call,
    calls (ask_rag retriever question qa_prompt llm max_context_chars σ).1
    = (calls σ ++ [RetrieverInvoke question; PromptFormat context question] ++ rest)%list
    ∧ ∀ c q, PromptFormat c q ∉ rest.
Proof.
  intros H1 context. unfold ask_rag.
  rewrite (bind_returned _ _ _ _ _ (external_run _ _ σ w1 _ H1)). fold context.
  set (σ1 := Session w1 _ _).
  destruct (qa_prompt context question w1) as [w2 [prompt_text|e]] eqn:H2.
  - rewrite (bind_returned _ _ _ _ _ (external_run _ _ σ1 w2 _ H2)).
    set (σ2 := Session w2 _ _).
    destruct (llm prompt_text w2) as [w3 o] eqn:H3.
    exists [LlmInvoke prompt_text]. split.
    + destruct o as [resp|e].
      * rewrite (bind_returned _ _ _ _ _ (external_run _ _ σ2 w3 _ H3)). simpl.
        by rewrite <- !app_assoc.
      * rewrite (bind_raised _ _ _ _ _ (external_run _ _ σ2 w3 _ H3)). simpl.
        by rewrite <- !app_assoc.
    + intros c q Hin. apply list_elem_of_singleton in Hin. discriminate Hin.
  - rewrite (bind_raised _ _ _ _ _ (external_run _ _ σ1 w2 _ H2)). simpl.
    exists []. split; [by rewrite <- !app_assoc|]. intros c q. apply not_elem_of_nil.
Qed.

Lemma slice_to_nonneg s stop :
  0 <= stop ->
  s = slice_to s stop +:+ str_drop (Z.to_nat (Z.min stop (Z.of_nat (String.length s)))) s
  ∧ Z.of_nat (String.length (slice_to s stop)) = Z.min stop (Z.of_nat (String.length s)).
Proof.
  intros Hstop. unfold slice_to. destruct (Z.ltb_spec stop 0) as [?|_]; [lia|].
  split; [by rewrite str_take_drop|]. rewrite length_str_take. lia.
Qed.

(** C8, as the code has it.  For every retriever result and every
    [max_context_chars] that is not negative, the context [ask_rag] passes to
    the prompt formatter (in its one formatting call) is the start of the
    joined document text, cut after [max_context_chars] characters when the
    text is longer; its length is at most [max_context_chars]. *)
Theorem ask_rag_context_bounded {X}
    (retriever : string -> Py X (list document)) (question : string)
    (qa_prompt : string -> string -> Py X string) (llm : string -> Py X pyval)
    (max_context_chars : Z) (σ : session X) (w1 : X) (docs : list document) :
  0 <= max_context_chars ->
  retriever question (world σ) = (w1, Returned docs) ->
  let joined := String.concat double_newline (map page_content docs) in
  ∃ (context tail : string) (rest : list call),
    calls (ask_rag retriever question qa_prompt llm max_context_chars σ).1
    = (calls σ ++ [RetrieverInvoke question; PromptFormat context question] ++ rest)%list
    ∧ (∀ c q, PromptFormat c q ∉ rest)
    ∧ joined = context +:+ tail
    ∧ Z.of_nat (String.length context)
      = Z.min max_context_chars (Z.of_nat (String.length joined))
    ∧ Z.of_nat (String.length context) <= max_context_chars.
Proof.
  intros Hmax H1 joined.
  destruct (ask_rag_retrieved retriever question qa_prompt llm max_context_chars σ w1 docs H1)
    as (rest & Hcalls & Hrest). fold joined in Hcalls.
  destruct (slice_to_nonneg joined max_context_chars Hmax) as (Hsplit & Hlen).
  eexists (slice_to joined max_context_chars), _, rest.
  split_and!; [done|done|exact Hsplit|done|lia].
Qed.

Lemma ask_rag_context_bounded_witness :
  ∃ (context tail : string) (rest : list call),
    calls (ask_rag example_retriever "What is RAG?" example_qa_prompt example_llm 3
             example_session).1
    = ([] ++ [RetrieverInvoke "What is RAG?"; PromptFormat context "What is RAG?"] ++ rest)%list
    ∧ "alpha" +:+ double_newline +:+ "beta" = context +:+ tail
    ∧ Z.of_nat (String.length context) <= 3.
Proof.
  destruct (ask_rag_context_bounded example_retriever "What is RAG?" example_qa_prompt
              example_llm 3 example_session 0%nat example_docs)
    as (context & tail & rest & Hcalls & _ & Hsplit & _ & Hlen).
  - lia.
  - reflexivity.
  - by exists context, tail, rest.
Defined.

(** C8 as stated fails on a negative [max_context_chars]: the slice
    [context[:-1]] drops the last character only, so the formatter receives
    ten characters of the eleven, more than [-1]. *)
Lemma ask_rag_negative_max_context_chars :
  let context := "alpha" +:+ double_newline +:+ "bet" in
  calls (ask_rag example_retriever "What is RAG?" example_qa_prompt example_llm (-1)
           example_session).1
  = [RetrieverInvoke "What is RAG?"; PromptFormat context "What is RAG?";
     LlmInvoke ("Context: " +:+ context +:+ " Question: What is RAG?")]
  ∧ String.length context = 10%nat
  ∧ ¬ (Z.of_nat (String.length context) <= -1).
Proof. split_and!; [reflexivity|reflexivity|]. vm_compute. by intros H. Qed.

(** The join of [ask_rag] puts a blank line, two line feeds, between each
    two texts. *)
Lemma join_double_newline (texts : list string) :
  String.concat double_newline texts = joined_by_blank_lines texts.
Proof.
  induction texts as [|t rest IH]; [reflexivity|].
  destruct rest as [|t' rest]; [reflexivity|].
  change (String.concat double_newline (t :: t' :: rest))
    with (t +:+ String "010" (String "010" (String.concat double_newline (t' :: rest)))).
  by rewrite IH.
Qed.

(** C9.  When the retriever, the prompt template and the model all answer,
    [ask_rag] joins the text of the retrieved documents with a double
    newline (two line feed characters, U+000A U+000A) between each two, in
    the order the retriever gave, formats the prompt with the slice of that
    text and the question, invokes the model once on the formatted prompt,
    and returns the pair of the model's response and the list of documents
    exactly as the retriever returned it, whatever the slice kept. *)
Theorem ask_rag_returns_response_and_documents {X}
    (retriever : string -> Py X (list document)) (question : string)
    (qa_prompt : string -> string -> Py X string) (llm : string -> Py X pyval)
    (max_context_chars : Z) (σ : session X)
    (w1 w2 w3 : X) (docs : list document) (prompt_text : string) (resp : pyval) :
  let context := slice_to (joined_by_blank_lines (map page_content docs))
                          max_context_chars in
  retriever question (world σ) = (w1, Returned docs) ->
  qa_prompt context question w1 = (w2, Returned prompt_text) ->
  llm prompt_text w2 = (w3, Returned resp) ->
  ask_rag retriever question qa_prompt llm max_context_chars σ
  = (Session w3
       (calls σ ++ [RetrieverInvoke question; PromptFormat context question;
                    LlmInvoke prompt_text])
       (local σ),
     Returned (resp, docs)).
Proof.
  intros context H1 H2 H3. unfold ask_rag.
  rewrite (bind_returned _ _ _ _ _ (external_run _ _ σ w1 _ H1)).
  rewrite join_double_newline. fold context.
  set (σ1 := Session w1 _ _).
  rewrite (bind_returned _ _ _ _ _ (external_run _ _ σ1 w2 _ H2)).
  set (σ2 := Session w2 _ _).
  rewrite (bind_returned _ _ _ _ _ (external_run _ _ σ2 w3 _ H3)).
  subst σ1 σ2. cbn [calls local world]. unfold mret, py_ret.
  by rewrite <- !app_assoc.
Qed.

Lemma ask_rag_returns_response_and_documents_witness :
  ask_rag example_retriever "What is RAG?" example_qa_prompt example_llm 3 example_session
  = (Session 1%nat
       [RetrieverInvoke "What is RAG?"; PromptFormat "alp" "What is RAG?";
        LlmInvoke "Context: alp Question: What is RAG?"]
       (Store ∅ []),
     Returned (PyStr (ustr "Score: 8"), example_docs))
  ∧ ask_rag example_retriever "What is RAG?" example_qa_prompt example_llm
      default_max_context_chars example_session
    = (Session 1%nat
         [RetrieverInvoke "What is RAG?";
          PromptFormat "alpha

beta" "What is RAG?";
          LlmInvoke "Context: alpha

beta Question: What is RAG?"]
         (Store ∅ []),
       Returned (PyStr (ustr "Score: 8"), example_docs)).
Proof.
  split.
  - apply (ask_rag_returns_response_and_documents example_retriever "What is RAG?"
             example_qa_prompt example_llm 3 example_session 0%nat 0%nat 1%nat example_docs
             "Context: alp Question: What is RAG?" (PyStr (ustr "Score: 8"))); reflexivity.
  - apply (ask_rag_returns_response_and_documents example_retriever "What is RAG?"
             example_qa_prompt example_llm default_max_context_chars example_session
             0%nat 0%nat 1%nat example_docs
             "Context: alpha

beta Question: What is RAG?" (PyStr (ustr "Score: 8"))); reflexivity.
Defined.

(** * Further properties *)

(** ** [score_question]: how updates compose *)

Lemma present_scored vf vr rf rr d :
  present (scored vf vr rf rr d) "vanilla_faith" = negb (is_None vf)
  ∧ present (scored vf vr rf rr d) "vanilla_relev" = negb (is_None vr)
  ∧ present (scored vf vr rf rr d) "rag_faith" = negb (is_None rf)
  ∧ present (scored vf vr rf rr d) "rag_relev" = negb (is_None rr).
Proof.
  unfold present, scored. split_and!.
  - do 3 (rewrite lookup_insert_ne by done). by rewrite lookup_insert_eq.
  - do 2 (rewrite lookup_insert_ne by done). by rewrite lookup_insert_eq.
  - rewrite lookup_insert_ne by done. by rewrite lookup_insert_eq.
  - by rewrite lookup_insert_eq.
Qed.

Lemma fully_populated_scored vf vr rf rr d :
  fully_populated (scored vf vr rf rr d) = true
  ↔ vf ≠ PyNone ∧ vr ≠ PyNone ∧ rf ≠ PyNone ∧ rr ≠ PyNone.
Proof.
  unfold fully_populated, score_keys. cbn [forallb].
  destruct (present_scored vf vr rf rr d) as (-> & -> & -> & ->).
  rewrite !andb_true_iff, !negb_true_iff.
  assert (Hn : ∀ v, is_None v = false ↔ v ≠ PyNone) by (intros []; split; done).
  rewrite !Hn. tauto.
Qed.

Lemma records_elem h l i r d :
  l !! i = Some r -> h !! r = Some d -> d ∈ records h l.
Proof.
  intros Hi Hr. unfold records. apply list_elem_of_omap. exists r.
  split; [|done]. apply list_elem_of_lookup. by exists i.
Qed.

(** X1.  A successful update with four values none of which is [None] makes
    the record fully populated, whatever it held before, so that the
    aggregation over the same list counts it; an update in which one of the
    four values is [None] leaves the record not fully populated. *)
Theorem score_question_makes_record_qualify
    (σ : store) (l : list loc) (index : Z) (vf vr rf rr : pyval) (r : loc) (d : dict) :
  0 <= index - 1 < len l ->
  l !! Z.to_nat (index - 1) = Some r ->
  heap σ !! r = Some d ->
  let σ' := (score_question l index vf vr rf rr σ).1 in
  ∃ d' : dict,
    heap σ' !! r = Some d'
    ∧ (fully_populated d' = true ↔ vf ≠ PyNone ∧ vr ≠ PyNone ∧ rf ≠ PyNone ∧ rr ≠ PyNone)
    ∧ (d' ∈ qualifying (heap σ') l ↔ vf ≠ PyNone ∧ vr ≠ PyNone ∧ rf ≠ PyNone ∧ rr ≠ PyNone).
Proof.
  intros Hidx Hr Hd σ'. exists (scored vf vr rf rr d).
  subst σ'. rewrite (score_question_in_range σ l index vf vr rf rr r d Hidx Hr Hd).
  cbn [fst heap]. split; [apply lookup_insert_eq|].
  split; [apply fully_populated_scored|].
  rewrite <- fully_populated_scored. unfold qualifying.
  rewrite list_elem_of_In, List.filter_In, <- list_elem_of_In. split; [by intros [_ ?]|].
  intros Hfull. split; [|done].
  apply (records_elem _ l (Z.to_nat (index - 1)) r); [done|apply lookup_insert_eq].
Qed.

Lemma score_question_makes_record_qualify_witness :
  let σ' := (score_question example_scores 2 (PyFloat F64.zero) (PyFloat F64.one) (PyInt 1)
               (PyFloat F64.one) (Store example_heap [])).1 in
  ∃ d' : dict, heap σ' !! 2%positive = Some d' ∧ d' ∈ qualifying (heap σ') example_scores.
Proof.
  intros σ'.
  destruct (score_question_makes_record_qualify (Store example_heap []) example_scores 2
              (PyFloat F64.zero) (PyFloat F64.one) (PyInt 1) (PyFloat F64.one)
              2%positive example_partial)
    as (d' & Hd' & _ & Hq).
  - unfold len, example_scores. simpl. lia.
  - reflexivity.
  - reflexivity.
  - exists d'. split; [exact Hd'|]. apply Hq. by split_and!.
Defined.

Lemma scored_scored vf vr rf rr vf' vr' rf' rr' d :
  scored vf' vr' rf' rr' (scored vf vr rf rr d) = scored vf' vr' rf' rr' d.
Proof.
  unfold scored. apply map_eq. intros k.
  rewrite !lookup_insert. repeat case_decide; done.
Qed.

(** X2.  The last update wins: two updates of the same valid index in a
    row leave the store exactly as the second one alone does; in particular
    repeating an update changes nothing. *)
Theorem score_question_last_write_wins
    (σ : store) (l : list loc) (index : Z) (vf vr rf rr vf' vr' rf' rr' : pyval)
    (r : loc) (d : dict) :
  0 <= index - 1 < len l ->
  l !! Z.to_nat (index - 1) = Some r ->
  heap σ !! r = Some d ->
  score_question l index vf' vr' rf' rr' (score_question l index vf vr rf rr σ).1
  = score_question l index vf' vr' rf' rr' σ.
Proof.
  intros Hidx Hr Hd.
  rewrite (score_question_in_range σ l index vf vr rf rr r d Hidx Hr Hd). cbn [fst].
  rewrite (score_question_in_range _ l index vf' vr' rf' rr' r _ Hidx Hr
             (lookup_insert_eq _ _ _)).
  rewrite (score_question_in_range σ l index vf' vr' rf' rr' r d Hidx Hr Hd).
  cbn [heap stdout]. by rewrite insert_insert_eq, scored_scored.
Qed.

Lemma score_question_last_write_wins_witness :
  score_question example_scores 4 PyNone PyNone PyNone PyNone
    (score_question example_scores 4 (PyInt 1) (PyInt 1) (PyInt 1) (PyInt 1)
       (Store example_heap [])).1
  = score_question example_scores 4 PyNone PyNone PyNone PyNone (Store example_heap []).
Proof.
  apply (score_question_last_write_wins (Store example_heap []) example_scores 4
           (PyInt 1) (PyInt 1) (PyInt 1) (PyInt 1) PyNone PyNone PyNone PyNone
           4%positive example_full_2).
  - unfold len, example_scores. simpl. lia.
  - reflexivity.
  - reflexivity.
Defined.

(** X3.  Updates of two different records commute: the order of two
    successful calls on indices that hold different records does not change
    the final store. *)
Theorem score_question_commutes
    (σ : store) (l : list loc) (i j : Z) (a1 a2 a3 a4 b1 b2 b3 b4 : pyval)
    (ri rj : loc) (di dj : dict) :
  0 <= i - 1 < len l -> 0 <= j - 1 < len l ->
  l !! Z.to_nat (i - 1) = Some ri -> l !! Z.to_nat (j - 1) = Some rj ->
  heap σ !! ri = Some di -> heap σ !! rj = Some dj ->
  ri ≠ rj ->
  score_question l j b1 b2 b3 b4 (score_question l i a1 a2 a3 a4 σ).1
  = score_question l i a1 a2 a3 a4 (score_question l j b1 b2 b3 b4 σ).1.
Proof.
  intros Hi Hj Hri Hrj Hdi Hdj Hne.
  rewrite (score_question_in_range σ l i a1 a2 a3 a4 ri di Hi Hri Hdi).
  rewrite (score_question_in_range σ l j b1 b2 b3 b4 rj dj Hj Hrj Hdj). cbn [fst].
  rewrite (score_question_in_range _ l j b1 b2 b3 b4 rj dj Hj Hrj)
    by (cbn [heap]; by rewrite lookup_insert_ne).
  rewrite (score_question_in_range _ l i a1 a2 a3 a4 ri di Hi Hri)
    by (cbn [heap]; by rewrite lookup_insert_ne).
  cbn [heap stdout]. by rewrite insert_insert_ne.
Qed.

Lemma score_question_commutes_witness :
  score_question example_scores 2 PyNone PyNone PyNone PyNone
    (score_question example_scores 1 (PyInt 1) (PyInt 1) (PyInt 1) (PyInt 1)
       (Store example_heap [])).1
  = score_question example_scores 1 (PyInt 1) (PyInt 1) (PyInt 1) (PyInt 1)
      (score_question example_scores 2 PyNone PyNone PyNone PyNone
         (Store example_heap [])).1.
Proof.
  apply (score_question_commutes (Store example_heap []) example_scores 1 2
           (PyInt 1) (PyInt 1) (PyInt 1) (PyInt 1) PyNone PyNone PyNone PyNone
           1%positive 2%positive example_full_1 example_partial);
    try reflexivity; try done; unfold len, example_scores; simpl; lia.
Defined.

Lemma score_question_out_of_range_run σ l index vf vr rf rr :
  ¬ (0 <= index - 1 < len l) ->
  score_question l index vf vr rf rr σ
  = (Store (heap σ) (stdout σ ++ ["Error: Index " +:+ pretty index +:+ " out of range."]),
     Returned tt).
Proof.
  intros Hidx. unfold score_question.
  destruct (Z.leb_spec 0 (index - 1)) as [H0|H0];
    destruct (Z.ltb_spec (index - 1) (len l)) as [H1|H1];
    simpl; [exfalso; apply Hidx; split; assumption|reflexivity..].
Qed.

(** X4.  On a list whose references all denote records, [score_question]
    returns normally for every index, positive, zero or negative; it creates
    and deletes no object, and it prints at most the one diagnostic line,
    after what was printed before. *)
Theorem score_question_never_raises
    (σ : store) (l : list loc) (index : Z) (vf vr rf rr : pyval) :
  allocated (heap σ) l ->
  let run := score_question l index vf vr rf rr σ in
  run.2 = Returned tt
  ∧ dom (heap run.1) = dom (heap σ)
  ∧ (stdout run.1 = stdout σ
     ∨ stdout run.1
       = (stdout σ ++ ["Error: Index " +:+ pretty index +:+ " out of range."])%list).
Proof.
  intros Hall run. subst run.
  destruct (decide (0 <= index - 1 < len l)) as [Hidx|Hidx].
  - destruct (lookup_lt_is_Some_2 l (Z.to_nat (index - 1))) as [r Hr].
    { unfold len in Hidx. lia. }
    unfold allocated in Hall. rewrite Forall_forall in Hall.
    destruct (Hall r) as [d Hd]; [by apply list_elem_of_lookup_2 in Hr|].
    rewrite (score_question_in_range σ l index vf vr rf rr r d Hidx Hr Hd).
    cbn [fst snd heap stdout]. split_and!; [done| |by left].
    apply dom_insert_lookup_L. by exists d.
  - rewrite (score_question_out_of_range_run σ l index vf vr rf rr Hidx).
    cbn [fst snd heap stdout]. split_and!; [done|done|by right].
Qed.

Lemma score_question_never_raises_witness :
  let run := score_question example_scores (-3) PyNone PyNone PyNone PyNone
               (Store example_heap []) in
  run.2 = Returned tt ∧ dom (heap run.1) = dom example_heap.
Proof.
  intros run.
  destruct (score_question_never_raises (Store example_heap []) example_scores (-3)
              PyNone PyNone PyNone PyNone) as (Hret & Hdom & _).
  - unfold allocated. apply (bool_decide_unpack _). vm_compute. exact I.
  - split; [exact Hret|exact Hdom].
Defined.

(** ** [compute_metrics]: failure, indifference to unscored records, repetition *)

Lemma py_add_not_number a v :
  as_float v = None -> v ≠ PyNone -> (∀ cls, v ≠ PyObj cls) ->
  ∃ e, py_add (PyFloat a) v = Raised e ∧ operand_error e.
Proof.
  destruct v as [|z|y|s|o]; simpl; intros H Hnone Hobj; try done.
  - unfold float_of_int in *. destruct (F64.is_finite (F64.of_Z z)); [done|].
    eexists. split; [done|by right].
  - eexists. split; [done|by left].
  - by destruct (Hobj o).
Qed.

Lemma fails_on_operand_bind {A B} (c : Py store A) (k : A -> Py store B) σ :
  fails_on_operand (c σ) -> fails_on_operand ((c ≫= k) σ).
Proof.
  intros (σ' & e & Hrun & He). exists σ', e. split; [|done].
  by apply bind_raised.
Qed.

Lemma iadd_item_raises σ m km s ks dm ds a v :
  heap σ !! m = Some dm -> heap σ !! s = Some ds ->
  dm !! km = Some (PyFloat a) -> ds !! ks = Some v ->
  as_float v = None -> v ≠ PyNone -> (∀ cls, v ≠ PyObj cls) ->
  fails_on_operand (iadd_item m km s ks σ).
Proof.
  intros Hm Hs Ha Hv Hx Hnone Hobj. unfold iadd_item.
  rewrite (bind_returned _ _ _ _ _ (dict_getitem_run m km _ dm σ Hm Ha)).
  rewrite (bind_returned _ _ _ _ _ (dict_getitem_run s ks _ ds σ Hs Hv)).
  destruct (py_add_not_number a v Hx Hnone Hobj) as (e & Hadd & He). rewrite Hadd.
  exists σ, e. split; [|done]. by erewrite bind_raised by reflexivity.
Qed.

Lemma present_not_None d k v : present d k = true -> d !! k = Some v -> v ≠ PyNone.
Proof. unfold present. intros H Hv. rewrite Hv in H. by destruct v. Qed.

Lemma plain_fields_lookup d k v :
  plain_fields d = true -> k ∈ score_keys -> d !! k = Some v -> ∀ cls, v ≠ PyObj cls.
Proof.
  unfold plain_fields. rewrite forallb_forall. intros H Hk Hv cls ->.
  apply list_elem_of_In in Hk. specialize (H k Hk). by rewrite Hv in H.
Qed.

Lemma present_lookup d k : present d k = true -> ∃ v, d !! k = Some v.
Proof. unfold present. destruct (d !! k) as [v|]; [by exists v|done]. Qed.

(** One turn of the loop on a fully populated record: either the four
    additions go through, or one of them raises. *)
Lemma compute_metrics_loop_step h out m s d rest a1 a2 a3 a4 cnt n :
  h !! m = None -> h !! s = Some d -> fully_populated d = true -> plain_fields d = true ->
  (numeric d
   ∧ ∃ b1 b2 b3 b4,
       compute_metrics_loop m (s :: rest) n
         (Store (<[m := metrics_dict (PyFloat a1) (PyFloat a2) (PyFloat a3) (PyFloat a4) cnt]> h) out)
       = compute_metrics_loop m rest (n + 1)
           (Store (<[m := metrics_dict (PyFloat b1) (PyFloat b2) (PyFloat b3) (PyFloat b4) cnt]> h) out))
  ∨ (¬ numeric d
     ∧ fails_on_operand
         (compute_metrics_loop m (s :: rest) n
            (Store (<[m := metrics_dict (PyFloat a1) (PyFloat a2) (PyFloat a3) (PyFloat a4) cnt]> h)
                   out))).
Proof.
  intros Hm Hs Hfull Hplain. assert (Hne : m ≠ s) by congruence.
  cbn [compute_metrics_loop].
  erewrite bind_returned; cycle 1.
  { apply (all_present_run s score_keys d). simpl. by rewrite lookup_insert_ne. }
  fold (fully_populated d). rewrite Hfull.
  unfold fully_populated, score_keys in Hfull. cbn [forallb] in Hfull.
  rewrite !andb_true_iff in Hfull. destruct Hfull as (P1 & P2 & P3 & P4 & _).
  destruct (present_lookup _ _ P1) as [v1 K1]. destruct (present_lookup _ _ P2) as [v2 K2].
  destruct (present_lookup _ _ P3) as [v3 K3]. destruct (present_lookup _ _ P4) as [v4 K4].
  assert (Hnum : ∀ k v, d !! k = Some v -> as_float v = None -> k ∈ score_keys -> ¬ numeric d).
  { intros k v Hk Hv Hin Hd. unfold numeric in Hd. rewrite Forall_forall in Hd.
    destruct (Hd k Hin) as [x Hx]. rewrite Hk in Hx. simpl in Hx. congruence. }
  assert (Hkeys : ∀ k, k = "vanilla_faith" ∨ k = "vanilla_relev" ∨ k = "rag_faith"
                       ∨ k = "rag_relev" -> k ∈ score_keys).
  { intros k Hk. unfold score_keys. rewrite !elem_of_cons. tauto. }
  destruct (as_float v1) as [x1|] eqn:F1.
  2: { right. split; [apply (Hnum _ _ K1 F1), Hkeys; tauto|].
       apply fails_on_operand_bind. eapply iadd_item_raises; simpl;
         [apply lookup_insert_eq | by rewrite lookup_insert_ne
         | apply metrics_dict_lookup | exact K1 | exact F1
         | exact (present_not_None _ _ _ P1 K1)
         | apply (plain_fields_lookup d "vanilla_faith" _ Hplain (Hkeys "vanilla_faith" ltac:(tauto)) K1)]. }
  erewrite bind_returned; cycle 1.
  { eapply iadd_item_run; simpl;
      [apply lookup_insert_eq | by rewrite lookup_insert_ne
      | apply metrics_dict_lookup | exact K1 | exact F1]. }
  simpl. rewrite insert_insert_eq, metrics_dict_vf.
  destruct (as_float v2) as [x2|] eqn:F2.
  2: { right. split; [apply (Hnum _ _ K2 F2), Hkeys; tauto|].
       apply fails_on_operand_bind. eapply iadd_item_raises; simpl;
         [apply lookup_insert_eq | by rewrite lookup_insert_ne
         | apply metrics_dict_lookup | exact K2 | exact F2
         | exact (present_not_None _ _ _ P2 K2)
         | apply (plain_fields_lookup d "vanilla_relev" _ Hplain (Hkeys "vanilla_relev" ltac:(tauto)) K2)]. }
  erewrite bind_returned; cycle 1.
  { eapply iadd_item_run; simpl;
      [apply lookup_insert_eq | by rewrite lookup_insert_ne
      | apply metrics_dict_lookup | exact K2 | exact F2]. }
  simpl. rewrite insert_insert_eq, metrics_dict_vr.
  destruct (as_float v3) as [x3|] eqn:F3.
  2: { right. split; [apply (Hnum _ _ K3 F3), Hkeys; tauto|].
       apply fails_on_operand_bind. eapply iadd_item_raises; simpl;
         [apply lookup_insert_eq | by rewrite lookup_insert_ne
         | apply metrics_dict_lookup | exact K3 | exact F3
         | exact (present_not_None _ _ _ P3 K3)
         | apply (plain_fields_lookup d "rag_faith" _ Hplain (Hkeys "rag_faith" ltac:(tauto)) K3)]. }
  erewrite bind_returned; cycle 1.
  { eapply iadd_item_run; simpl;
      [apply lookup_insert_eq | by rewrite lookup_insert_ne
      | apply metrics_dict_lookup | exact K3 | exact F3]. }
  simpl. rewrite insert_insert_eq, metrics_dict_rf.
  destruct (as_float v4) as [x4|] eqn:F4.
  2: { right. split; [apply (Hnum _ _ K4 F4), Hkeys; tauto|].
       apply fails_on_operand_bind. eapply iadd_item_raises; simpl;
         [apply lookup_insert_eq | by rewrite lookup_insert_ne
         | apply metrics_dict_lookup | exact K4 | exact F4
         | exact (present_not_None _ _ _ P4 K4)
         | apply (plain_fields_lookup d "rag_relev" _ Hplain (Hkeys "rag_relev" ltac:(tauto)) K4)]. }
  erewrite bind_returned; cycle 1.
  { eapply iadd_item_run; simpl;
      [apply lookup_insert_eq | by rewrite lookup_insert_ne
      | apply metrics_dict_lookup | exact K4 | exact F4]. }
  simpl. rewrite insert_insert_eq, metrics_dict_rr.
  left. split; [|by eexists _, _, _, _].
  unfold numeric, score_keys. rewrite !Forall_cons, K1, K2, K3, K4. simpl.
  rewrite F1, F2, F3, F4. by split_and!.
Qed.

Lemma compute_metrics_loop_raises h out m l a1 a2 a3 a4 cnt n :
  h !! m = None -> allocated h l ->
  Forall (fun d => plain_fields d = true) (qualifying h l) ->
  Exists (fun d => ¬ numeric d) (qualifying h l) ->
  fails_on_operand
    (compute_metrics_loop m l n
       (Store (<[m := metrics_dict (PyFloat a1) (PyFloat a2) (PyFloat a3) (PyFloat a4) cnt]> h) out)).
Proof.
  intros Hm. revert a1 a2 a3 a4 n.
  induction l as [|s rest IH]; intros a1 a2 a3 a4 n Hall Hplain Hex.
  { by apply Exists_nil in Hex. }
  apply Forall_cons in Hall as [[d Hs] Hall].
  rewrite (qualifying_cons h s rest d Hs) in Hex, Hplain.
  destruct (fully_populated d) eqn:Hfull.
  - apply Forall_cons in Hplain as [Hd0 Hplain].
    destruct (compute_metrics_loop_step h out m s d rest a1 a2 a3 a4 cnt n Hm Hs Hfull Hd0)
      as [(Hd & b1 & b2 & b3 & b4 & ->)|(_ & Hfail)]; [|done].
    apply Exists_cons in Hex as [Hbad|Hex]; [done|]. by apply IH.
  - assert (Hne : m ≠ s) by congruence. cbn [compute_metrics_loop].
    erewrite bind_returned; cycle 1.
    { apply (all_present_run s score_keys d). simpl. by rewrite lookup_insert_ne. }
    fold (fully_populated d). rewrite Hfull. by apply IH.
Qed.

(** X5.  [compute_metrics] does not guard the additions.  On a list whose
    fully populated records hold in their four fields only numbers and
    strings (no object of another class), when one of these records holds
    something that is not a number a float can take in, that is a string, or
    an integer beyond the range of a float, the call raises and returns no
    summary: the [TypeError] of [float += str], or the [OverflowError] of the
    conversion of the integer. *)
Theorem compute_metrics_raises_on_non_number
    (h : gmap loc dict) (out : list string) (l : list loc) :
  allocated h l ->
  Forall (fun d => plain_fields d = true) (qualifying h l) ->
  Exists (fun d => ¬ numeric d) (qualifying h l) ->
  ∃ (σ' : store) (e : exn),
    compute_metrics l (Store h out) = (σ', Raised e)
    ∧ (e = Exn TypeError "unsupported operand type(s) for +=: 'float' and 'str'"
       ∨ e = Exn OverflowError "int too large to convert to float").
Proof.
  intros Hall Hplain Hex. unfold compute_metrics.
  erewrite bind_returned by reflexivity. cbn [heap stdout].
  apply fails_on_operand_bind.
  apply (compute_metrics_loop_raises h out (fresh (dom h)) l F64.zero F64.zero F64.zero
           F64.zero (PyInt 0) 0 (fresh_unallocated h) Hall Hplain Hex).
Qed.

Lemma compute_metrics_raises_on_non_number_witness :
  ∃ σ' : store,
    compute_metrics [1; 2]%positive (Store example_heap_text [])
    = (σ', Raised (Exn TypeError "unsupported operand type(s) for +=: 'float' and 'str'")).
Proof.
  assert (HQ : qualifying example_heap_text [1; 2]%positive
               = [example_full_1; example_text_score]).
  { apply (bool_decide_unpack _). vm_compute. exact I. }
  destruct (compute_metrics_raises_on_non_number example_heap_text [] [1; 2]%positive)
    as (σ' & e & Hrun & _).
  - unfold allocated. apply (bool_decide_unpack _). vm_compute. exact I.
  - apply (bool_decide_unpack _). vm_compute. exact I.
  - rewrite HQ. apply Exists_cons_tl, Exists_cons_hd.
    intros Hnum. unfold numeric, score_keys in Hnum.
    apply Forall_cons in Hnum as [_ Hnum]. apply Forall_cons in Hnum as [[x Hx] _].
    vm_compute in Hx. discriminate Hx.
  - exists σ'.
    assert (Hc : (compute_metrics [1; 2]%positive (Store example_heap_text [])).2
                 = Raised (Exn TypeError
                             "unsupported operand type(s) for +=: 'float' and 'str'")).
    { vm_compute. reflexivity. }
    rewrite Hrun in Hc. cbn [snd] in Hc. by rewrite <- Hc.
Defined.

Lemma bind_ext_run {Σ A B} (c : Py Σ A) (k1 k2 : A -> Py Σ B) σ :
  (∀ a σ', c σ = (σ', Returned a) -> k1 a σ' = k2 a σ') ->
  (c ≫= k1) σ = (c ≫= k2) σ.
Proof.
  intros H. unfold mbind, py_bind. destruct (c σ) as [σ' [a|e]]; [by apply H|done].
Qed.

Lemma bind_cong_l {Σ A B} (c1 c2 : Py Σ A) (k : A -> Py Σ B) σ :
  c1 σ = c2 σ -> (c1 ≫= k) σ = (c2 ≫= k) σ.
Proof. intros H. unfold mbind, py_bind. by rewrite H. Qed.

Lemma writes_only_lookup {A} m (c : Py store A) σ σ' a r :
  writes_only m c -> c σ = (σ', Returned a) -> r ≠ m -> heap σ' !! r = heap σ !! r.
Proof.
  intros Hc Hrun Hr. destruct (Hc σ) as [_ H]. rewrite Hrun in H. by apply H.
Qed.

(** The loop gives the same result with and without a record that is not
    fully populated. *)
Lemma compute_metrics_loop_skips m r d l1 l2 n σ :
  r ≠ m -> heap σ !! r = Some d -> fully_populated d = false ->
  compute_metrics_loop m (l1 ++ r :: l2) n σ = compute_metrics_loop m (l1 ++ l2) n σ.
Proof.
  intros Hne. revert n σ. induction l1 as [|s l1 IH]; intros n σ Hr Hd.
  - cbn [app compute_metrics_loop].
    rewrite (bind_returned _ _ _ _ _ (all_present_run r score_keys d σ Hr)).
    fold (fully_populated d). by rewrite Hd.
  - cbn [app compute_metrics_loop].
    apply bind_ext_run. intros ok σ0 H0.
    assert (σ0 = σ) as ->.
    { pose proof (reads_only_all_present s score_keys σ) as H. by rewrite H0 in H. }
    destruct ok; [|by apply IH].
    apply bind_ext_run. intros [] σ1 H1.
    pose proof (writes_only_lookup m _ _ _ _ r (writes_only_iadd_item _ _ _ _) H1 Hne) as E1.
    apply bind_ext_run. intros [] σ2 H2.
    pose proof (writes_only_lookup m _ _ _ _ r (writes_only_iadd_item _ _ _ _) H2 Hne) as E2.
    apply bind_ext_run. intros [] σ3 H3.
    pose proof (writes_only_lookup m _ _ _ _ r (writes_only_iadd_item _ _ _ _) H3 Hne) as E3.
    apply bind_ext_run. intros [] σ4 H4.
    pose proof (writes_only_lookup m _ _ _ _ r (writes_only_iadd_item _ _ _ _) H4 Hne) as E4.
    apply IH; [|done]. congruence.
Qed.

(** X6.  A record that is not fully populated is invisible to the
    aggregation: with it or without it in the list, at any position,
    [compute_metrics] ends in the same store with the same result (the same
    summary, or the same exception).  It is skipped, not counted as zero. *)
Theorem compute_metrics_skips_unscored
    (σ : store) (l1 l2 : list loc) (r : loc) (d : dict) :
  heap σ !! r = Some d ->
  fully_populated d = false ->
  compute_metrics (l1 ++ r :: l2) σ = compute_metrics (l1 ++ l2) σ.
Proof.
  intros Hr Hd. unfold compute_metrics.
  apply bind_ext_run. intros m σ0 H0. injection H0 as <- <-.
  assert (Hne : r ≠ fresh (dom (heap σ))).
  { intros ->. by rewrite fresh_unallocated in Hr. }
  apply bind_cong_l.
  apply (compute_metrics_loop_skips (fresh (dom (heap σ))) r d l1 l2 0 _ Hne); [|done].
  cbn [heap]. by rewrite lookup_insert_ne.
Qed.

Lemma compute_metrics_skips_unscored_witness :
  compute_metrics ([1%positive] ++ 2%positive :: [4%positive])%list (Store example_heap [])
  = compute_metrics ([1%positive] ++ [4%positive])%list (Store example_heap []).
Proof.
  apply (compute_metrics_skips_unscored (Store example_heap []) [1%positive] [4%positive]
           2%positive example_partial); reflexivity.
Defined.

Lemma compute_metrics_summary h out l :
  allocated h l -> Forall numeric (qualifying h l) -> len l <= PY_SSIZE_T_MAX ->
  compute_metrics l (Store h out)
  = (Store (<[fresh (dom h) := summary (qualifying h l)]> h) out, Returned (fresh (dom h))).
Proof.
  intros Hall Hnum Hlen. destruct (qualifying h l) as [|d Q] eqn:HQ.
  - by apply compute_metrics_zero.
  - rewrite (compute_metrics_some h out l Hall); [by rewrite HQ|by rewrite HQ|by rewrite HQ|done].
Qed.

Lemma records_insert_new h l m x :
  h !! m = None -> allocated h l -> records (<[m := x]> h) l = records h l.
Proof.
  intros Hm Hall. unfold records. induction Hall as [|r l [d Hr] _ IH]; [done|].
  cbn [omap list_omap]. rewrite lookup_insert_ne by congruence. by rewrite IH.
Qed.

Lemma allocated_insert_new h l m x : allocated h l -> allocated (<[m := x]> h) l.
Proof.
  unfold allocated. intros Hall. eapply Forall_impl; [exact Hall|]. intros r [d Hr].
  destruct (decide (m = r)) as [->|Hne].
  - rewrite lookup_insert_eq. by eexists.
  - rewrite lookup_insert_ne by done. by exists d.
Qed.

(** X7.  The summary is recomputed from scratch at every call: a second
    call on the same list returns a second new dictionary, different from the
    first, with the same content; the first one is still there, unchanged, and
    so is every other object. *)
Theorem compute_metrics_twice (h : gmap loc dict) (out : list string) (l : list loc) :
  allocated h l ->
  Forall numeric (qualifying h l) ->
  len l <= PY_SSIZE_T_MAX ->
  ∃ (m1 m2 : loc) (metrics : dict) (σ1 σ2 : store),
    compute_metrics l (Store h out) = (σ1, Returned m1)
    ∧ compute_metrics l σ1 = (σ2, Returned m2)
    ∧ m1 ≠ m2
    ∧ heap σ2 !! m1 = Some metrics
    ∧ heap σ2 !! m2 = Some metrics
    ∧ (∀ r, r ≠ m1 -> r ≠ m2 -> heap σ2 !! r = h !! r)
    ∧ stdout σ2 = out.
Proof.
  intros Hall Hnum Hlen.
  set (m1 := fresh (dom h)). set (S := summary (qualifying h l)).
  set (h1 := <[m1 := S]> h). set (m2 := fresh (dom h1)).
  assert (Hm1 : h !! m1 = None) by apply fresh_unallocated.
  assert (HQ : qualifying h1 l = qualifying h l).
  { unfold qualifying, h1. by rewrite records_insert_new. }
  assert (Hne : m1 ≠ m2).
  { intros E. pose proof (fresh_unallocated h1) as H. fold m2 in H. rewrite <- E in H.
    unfold h1 in H. by rewrite lookup_insert_eq in H. }
  exists m1, m2, S, (Store h1 out), (Store (<[m2 := S]> h1) out).
  split_and!.
  - by apply compute_metrics_summary.
  - rewrite (compute_metrics_summary h1 out l); [by rewrite HQ| |by rewrite HQ|done].
    by apply allocated_insert_new.
  - done.
  - cbn [heap]. rewrite lookup_insert_ne by done. apply lookup_insert_eq.
  - cbn [heap]. apply lookup_insert_eq.
  - intros r H1 H2. cbn [heap]. unfold h1. by rewrite !lookup_insert_ne.
  - done.
Qed.

Lemma compute_metrics_twice_witness :
  ∃ (m1 m2 : loc) (metrics : dict) (σ1 σ2 : store),
    compute_metrics example_scores (Store example_heap []) = (σ1, Returned m1)
    ∧ compute_metrics example_scores σ1 = (σ2, Returned m2)
    ∧ m1 ≠ m2
    ∧ heap σ2 !! m1 = Some metrics
    ∧ heap σ2 !! m2 = Some metrics.
Proof.
  destruct (compute_metrics_twice example_heap [] example_scores)
    as (m1 & m2 & metrics & σ1 & σ2 & H1 & H2 & Hne & Hm1 & Hm2 & _).
  - unfold allocated. apply (bool_decide_unpack _). vm_compute. exact I.
  - unfold numeric. apply (bool_decide_unpack _). vm_compute. exact I.
  - apply (bool_decide_unpack _). vm_compute. exact I.
  - exists m1, m2, metrics, σ1, σ2.
    split; [exact H1|]. split; [exact H2|]. split; [exact Hne|]. split; [exact Hm1|exact Hm2].
Defined.

(** ** [parse_score]: when the handler runs, and what the text around the
    number may be *)

(** X8.  The bare [except] of [parse_score] is reached only by arguments
    that are not strings: on every string the body of the [try] returns (the
    text the pattern matches always converts to a float), and on every other
    argument the search raises a [TypeError], which the handler turns into
    [0.0]. *)
Theorem parse_score_body_raises_only_on_non_strings :
  (∀ s : text, ∃ x : float,
      parse_score_body (PyStr s) = Returned x ∧ parse_score (PyStr s) = x)
  ∧ (∀ response : pyval,
       (∀ s, response ≠ PyStr s) ->
       ∃ e, parse_score_body response = Raised e ∧ exn_cls e = TypeError).
Proof.
  split.
  - intros s. unfold parse_score, parse_score_body, re_search.
    rewrite outcome_bind_returned.
    destruct (search_from 0 s) as [[i m]|] eqn:Hs; [|by eexists].
    destruct (search_from_some s 0 i m Hs) as (j & v & _ & _ & Hv). cbn [m_group].
    rewrite (literal_value_float_of_str m v Hv), outcome_bind_returned.
    rewrite (clamp_python v (literal_value_signed m v Hv)). by eexists.
  - intros [| | |s|] H; try (by eexists). by destruct (H s).
Qed.







(** ** [evaluate_answer_with_llm]: everything it can do *)

Lemma evaluate_answer_with_llm_caught {X} (llm : string -> Py X pyval)
    (question answer context : pyarg X) (σ : session X)
    (e : exn) (w' : X) (made : list call) :
  judge_fails llm question answer context (world σ) e w' made ->
  is_Exception e = true ->
  evaluate_answer_with_llm llm question answer context σ
  = (Session w' (calls σ ++ made)
       (Store (heap (local σ))
              (stdout (local σ) ++ ["Error during LLM evaluation: " +:+ exn_str e])),
     Returned (F64.zero, F64.zero)).
Proof.
  intros Hfail He. unfold evaluate_answer_with_llm, try_except_Exception.
  by rewrite (judge_fails_body _ _ _ _ _ _ _ _ Hfail), He.
Qed.

(** X10.  For a question and an answer that are strings and a context that
    is a string or [None], whatever the model does (answer or raise, at
    either invocation), [evaluate_answer_with_llm] touches no object of the
    heap; it invokes the model once, on the relevancy prompt, or, only with
    a context that is not empty, twice, on the relevancy prompt and then on
    the faithfulness prompt; if it returns, it has printed nothing, or it has
    printed one line and returns [(0.0, 0.0)]; if it raises, the exception is
    not an instance of [Exception] and nothing was printed. *)
Theorem evaluate_answer_with_llm_effects {X} (llm : string -> Py X pyval)
    (question answer : string) (context : option string) (σ : session X) :
  let run := evaluate_answer_with_llm llm (ArgStr question) (ArgStr answer)
               (arg_of_option context) σ in
  let rel := LlmInvoke (relevancy_prompt question answer) in
  heap (local run.1) = heap (local σ)
  ∧ (calls run.1 = (calls σ ++ [rel])%list
     ∨ ∃ c ctx, context = Some (String c ctx)
                ∧ calls run.1
                  = (calls σ ++ [rel; LlmInvoke (faithfulness_prompt (String c ctx) answer)])%list)
  ∧ match run.2 with
    | Returned scores =>
        stdout (local run.1) = stdout (local σ)
        ∨ (scores = (F64.zero, F64.zero)
           ∧ ∃ line, stdout (local run.1) = (stdout (local σ) ++ [line])%list)
    | Raised e => is_Exception e = false ∧ stdout (local run.1) = stdout (local σ)
    end.
Proof.
  intros run rel. subst run.
  set (Q := @ArgStr X question). set (A := @ArgStr X answer).
  set (C := @arg_of_option X context).
  assert (Hcaught : ∀ e w' made,
            judge_fails llm Q A C (world σ) e w' made ->
            let run := evaluate_answer_with_llm llm Q A C σ in
            heap (local run.1) = heap (local σ)
            ∧ calls run.1 = (calls σ ++ made)%list
            ∧ match run.2 with
              | Returned scores =>
                  stdout (local run.1) = stdout (local σ)
                  ∨ (scores = (F64.zero, F64.zero)
                     ∧ ∃ line, stdout (local run.1) = (stdout (local σ) ++ [line])%list)
              | Raised e => is_Exception e = false ∧ stdout (local run.1) = stdout (local σ)
              end).
  { intros e w' made Hfail. destruct (is_Exception e) eqn:He.
    - rewrite (evaluate_answer_with_llm_caught llm Q A C σ e w' made Hfail He).
      cbn. split_and!; [done|done|]. right. split; [done|by eexists].
    - rewrite (evaluate_propagates llm Q A C σ e w' made Hfail He).
      cbn. by split_and!. }
  destruct (llm (relevancy_prompt question answer) (world σ)) as [w1 [r1|e1]] eqn:H1.
  2: { destruct (Hcaught e1 w1 _ (fails_on_relevancy llm Q A C _ _ (world σ) question
                                    (world σ) answer w1 eq_refl eq_refl H1))
         as (Hh & Hc & Hs).
       split_and!; [done|by left|done]. }
  pose proof (relevancy_answered_str llm question answer (world σ) r1 w1 H1) as Hrel.
  fold Q A in Hrel.
  destruct context as [[|c ctx]|].
  - unfold evaluate_answer_with_llm, try_except_Exception.
    rewrite (evaluate_body_no_context llm Q A C σ question answer r1 w1 w1 Hrel eq_refl).
    cbn. split_and!; [done|by left|by left].
  - destruct (llm (faithfulness_prompt (String c ctx) answer) w1) as [w2 [r2|e2]] eqn:H2.
    + unfold evaluate_answer_with_llm, try_except_Exception.
      rewrite (evaluate_body_context llm Q A C σ question answer r1 w1 w1 w1 (String c ctx)
                 w1 answer w2 (Returned r2) Hrel eq_refl eq_refl eq_refl H2).
      cbn. split_and!; [done|right; by exists c, ctx|by left].
    + destruct (Hcaught e2 w2 _
                  (fails_on_faithfulness llm Q A C _ _ question answer r1 w1 w1 w1
                     (String c ctx) w1 answer w2 Hrel eq_refl eq_refl eq_refl H2))
        as (Hh & Hc & Hs).
      split_and!; [done|right; by exists c, ctx|done].
  - unfold evaluate_answer_with_llm, try_except_Exception.
    rewrite (evaluate_body_no_context llm Q A C σ question answer r1 w1 w1 Hrel eq_refl).
    cbn. split_and!; [done|by left|by left].
Qed.

(** ** [ask_rag]: failures, the slice, and what it leaves alone *)

Lemma ask_rag_fails_run {X}
    (retriever : string -> Py X (list document)) (question : string)
    (qa_prompt : string -> string -> Py X string) (llm : string -> Py X pyval)
    (max_context_chars : Z) (σ : session X) (e : exn) (w' : X) (made : list call) :
  rag_fails retriever question qa_prompt llm max_context_chars (world σ) e w' made ->
  ask_rag retriever question qa_prompt llm max_context_chars σ
  = (Session w' (calls σ ++ made) (local σ), Raised e).
Proof.
  intros [w1 H1|w1 docs w2 H1 H2|w1 docs w2 prompt_text w3 H1 H2 H3]; unfold ask_rag.
  - by rewrite (bind_raised _ _ _ _ _ (external_run _ _ σ w1 _ H1)).
  - rewrite (bind_returned _ _ _ _ _ (external_run _ _ σ w1 _ H1)).
    set (σ1 := Session w1 _ _).
    rewrite (bind_raised _ _ _ _ _ (external_run _ _ σ1 w2 _ H2)).
    subst σ1. cbn [calls local]. by rewrite <- !app_assoc.
  - rewrite (bind_returned _ _ _ _ _ (external_run _ _ σ w1 _ H1)).
    set (σ1 := Session w1 _ _).
    rewrite (bind_returned _ _ _ _ _ (external_run _ _ σ1 w2 _ H2)).
    set (σ2 := Session w2 _ _).
    rewrite (bind_raised _ _ _ _ _ (external_run _ _ σ2 w3 _ H3)).
    subst σ1 σ2. cbn [calls local]. by rewrite <- !app_assoc.
Qed.

(** X11.  [ask_rag] catches nothing: an exception raised by the retriever,
    by the prompt template or by the model, of whatever class, leaves
    [ask_rag] as that exception; the collaborators that come after the one
    that failed are not called, and nothing is printed. *)
Theorem ask_rag_propagates_failures {X}
    (retriever : string -> Py X (list document)) (question : string)
    (qa_prompt : string -> string -> Py X string) (llm : string -> Py X pyval)
    (max_context_chars : Z) (σ : session X) (e : exn) (w' : X) (made : list call) :
  rag_fails retriever question qa_prompt llm max_context_chars (world σ) e w' made ->
  ask_rag retriever question qa_prompt llm max_context_chars σ
  = (Session w' (calls σ ++ made) (local σ), Raised e).
Proof. apply ask_rag_fails_run. Qed.

Lemma ask_rag_propagates_failures_witness :
  ask_rag example_retriever "What is RAG?" example_qa_prompt example_llm_failing 1500
    (Session 1%nat [] (Store ∅ []))
  = (Session 2%nat
       [RetrieverInvoke "What is RAG?";
        PromptFormat ("alpha" +:+ double_newline +:+ "beta") "What is RAG?";
        LlmInvoke ("Context: alpha" +:+ double_newline +:+ "beta Question: What is RAG?")]
       (Store ∅ []),
     Raised (Exn RuntimeError "model unavailable")).
Proof.
  exact (ask_rag_propagates_failures example_retriever "What is RAG?" example_qa_prompt
           example_llm_failing 1500 (Session 1%nat [] (Store ∅ []))
           (Exn RuntimeError "model unavailable") 2%nat _
           (fails_on_model example_retriever "What is RAG?" example_qa_prompt
              example_llm_failing 1500 1%nat (Exn RuntimeError "model unavailable")
              1%nat example_docs 1%nat
              ("Context: alpha" +:+ double_newline +:+ "beta Question: What is RAG?")
              2%nat eq_refl eq_refl eq_refl)).
Defined.

Lemma ask_rag_returns_run {X}
    (retriever : string -> Py X (list document)) (question : string)
    (qa_prompt : string -> string -> Py X string) (llm : string -> Py X pyval)
    (max_context_chars : Z) (σ : session X)
    (w1 w2 w3 : X) (docs : list document) (prompt_text : string) (resp : pyval) :
  let context := slice_to (String.concat double_newline (map page_content docs))
                          max_context_chars in
  retriever question (world σ) = (w1, Returned docs) ->
  qa_prompt context question w1 = (w2, Returned prompt_text) ->
  llm prompt_text w2 = (w3, Returned resp) ->
  ask_rag retriever question qa_prompt llm max_context_chars σ
  = (Session w3
       (calls σ ++ [RetrieverInvoke question; PromptFormat context question;
                    LlmInvoke prompt_text])
       (local σ),
     Returned (resp, docs)).
Proof.
  intros context H1 H2 H3. unfold ask_rag.
  rewrite (bind_returned _ _ _ _ _ (external_run _ _ σ w1 _ H1)). fold context.
  set (σ1 := Session w1 _ _).
  rewrite (bind_returned _ _ _ _ _ (external_run _ _ σ1 w2 _ H2)).
  set (σ2 := Session w2 _ _).
  rewrite (bind_returned _ _ _ _ _ (external_run _ _ σ2 w3 _ H3)).
  subst σ1 σ2. cbn [calls local world]. unfold mret, py_ret.
  by rewrite <- !app_assoc.
Qed.

Lemma str_take_drop_length k s :
  str_take k s +:+ str_drop (String.length (str_take k s)) s = s.
Proof.
  revert s. induction k as [|k IH]; intros [|c s]; simpl; try done.
  by rewrite str_app_cons, IH.
Qed.

Lemma slice_to_spec s stop :
  s = slice_to s stop +:+ str_drop (String.length (slice_to s stop)) s
  ∧ Z.of_nat (String.length (slice_to s stop))
    = if stop <? 0 then Z.max 0 (Z.of_nat (String.length s) + stop)
      else Z.min stop (Z.of_nat (String.length s)).
Proof.
  unfold slice_to. split; [by rewrite str_take_drop_length|].
  rewrite length_str_take. destruct (stop <? 0) eqn:E; lia.
Qed.

Lemma str_length_0 s : String.length s = 0%nat -> s = "".
Proof. by destruct s. Qed.

(** X12.  The context [ask_rag] formats, for every [max_context_chars]: it
    is always a prefix of the joined text; for a bound that is not negative it
    has [min(bound, length)] characters, so the whole text when the text
    fits; for a negative bound it is the text without its last [-bound]
    characters (empty when there are not that many).  With no document
    retrieved it is empty. *)
Theorem ask_rag_context_is_slice {X}
    (retriever : string -> Py X (list document)) (question : string)
    (qa_prompt : string -> string -> Py X string) (llm : string -> Py X pyval)
    (max_context_chars : Z) (σ : session X) (w1 : X) (docs : list document) :
  retriever question (world σ) = (w1, Returned docs) ->
  let joined := String.concat double_newline (map page_content docs) in
  let n := Z.of_nat (String.length joined) in
  ∃ (context tail : string) (rest : list call),
    calls (ask_rag retriever question qa_prompt llm max_context_chars σ).1
    = (calls σ ++ [RetrieverInvoke question; PromptFormat context question] ++ rest)%list
    ∧ joined = context +:+ tail
    ∧ Z.of_nat (String.length context)
      = (if max_context_chars <? 0 then Z.max 0 (n + max_context_chars)
         else Z.min max_context_chars n)
    ∧ (n <= max_context_chars -> context = joined)
    ∧ (docs = [] -> context = "").
Proof.
  intros H1 joined n.
  destruct (ask_rag_retrieved retriever question qa_prompt llm max_context_chars σ w1 docs H1)
    as (rest & Hcalls & _). fold joined in Hcalls.
  destruct (slice_to_spec joined max_context_chars) as [Hsplit Hlen]. fold n in Hlen.
  set (context := slice_to joined max_context_chars) in *.
  eexists context, _, rest. split_and!; [exact Hcalls|exact Hsplit|exact Hlen| |].
  - intros Hfit. destruct (Z.ltb_spec max_context_chars 0) as [?|_]; [lia|].
    assert (Hn : String.length context = String.length joined) by lia.
    assert (E : String.length (str_drop (String.length context) joined) = 0%nat).
    { pose proof (f_equal String.length Hsplit) as HL. rewrite str_length_app in HL. lia. }
    apply str_length_0 in E. etrans; [|symmetry; exact Hsplit].
    by rewrite E, str_app_nil_r.
  - intros Hdocs. apply str_length_0.
    assert (Hn0 : n = 0) by (subst n joined; rewrite Hdocs; reflexivity).
    revert Hlen. rewrite Hn0. destruct (Z.ltb_spec max_context_chars 0); lia.
Qed.

Lemma ask_rag_context_is_slice_witness :
  ∃ (context tail : string) (rest : list call),
    calls (ask_rag example_retriever "What is RAG?" example_qa_prompt example_llm (-4)
             example_session).1
    = ([] ++ [RetrieverInvoke "What is RAG?"; PromptFormat context "What is RAG?"] ++ rest)%list
    ∧ "alpha" +:+ double_newline +:+ "beta" = context +:+ tail
    ∧ Z.of_nat (String.length context) = 7.
Proof.
  destruct (ask_rag_context_is_slice example_retriever "What is RAG?" example_qa_prompt
              example_llm (-4) example_session 0%nat example_docs eq_refl)
    as (context & tail & rest & Hcalls & Hsplit & Hlen & _).
  by exists context, tail, rest.
Defined.

(** X13.  Whatever the collaborators do, [ask_rag] leaves the interpreter's
    store as it was (it prints nothing and touches no object), and calls the
    collaborators in a fixed order, each at most once: the retriever, then
    the prompt template, then the model.  It returns only when all three
    calls were made. *)
Theorem ask_rag_effects {X}
    (retriever : string -> Py X (list document)) (question : string)
    (qa_prompt : string -> string -> Py X string) (llm : string -> Py X pyval)
    (max_context_chars : Z) (σ : session X) :
  let run := ask_rag retriever question qa_prompt llm max_context_chars σ in
  local run.1 = local σ
  ∧ ∃ made : list call,
      calls run.1 = (calls σ ++ made)%list
      ∧ (made = [RetrieverInvoke question] ∧ (∃ e, run.2 = Raised e)
         ∨ (∃ context, made = [RetrieverInvoke question; PromptFormat context question]
                       ∧ ∃ e, run.2 = Raised e)
         ∨ (∃ context prompt_text,
               made = [RetrieverInvoke question; PromptFormat context question;
                       LlmInvoke prompt_text])).
Proof.
  intros run. subst run.
  destruct (retriever question (world σ)) as [w1 [docs|e]] eqn:H1.
  2: { rewrite (ask_rag_fails_run retriever question qa_prompt llm max_context_chars
                  σ e w1 _ (fails_on_retrieval _ _ _ _ _ _ _ _ H1)).
       cbn. split; [done|]. eexists. split; [done|]. left. split; [done|by exists e]. }
  set (context := slice_to (String.concat double_newline (map page_content docs))
                           max_context_chars).
  destruct (qa_prompt context question w1) as [w2 [prompt_text|e]] eqn:H2.
  2: { rewrite (ask_rag_fails_run retriever question qa_prompt llm max_context_chars
                  σ e w2 _ (fails_on_format _ _ _ _ _ _ _ w1 docs w2 H1 H2)).
       cbn. split; [done|]. eexists. split; [done|]. right; left.
       exists context. split; [done|by exists e]. }
  destruct (llm prompt_text w2) as [w3 [resp|e]] eqn:H3.
  - rewrite (ask_rag_returns_run retriever question qa_prompt llm max_context_chars σ
               w1 w2 w3 docs prompt_text resp H1 H2 H3).
    cbn. split; [done|]. eexists. split; [done|]. right; right. by exists context, prompt_text.
  - rewrite (ask_rag_fails_run retriever question qa_prompt llm max_context_chars
               σ e w3 _ (fails_on_model _ _ _ _ _ _ _ w1 docs w2 prompt_text w3 H1 H2 H3)).
    cbn. split; [done|]. eexists. split; [done|]. right; right. by exists context, prompt_text.
Qed.
